(** * Court transcription system: the audio pipeline and its storage

    A shallow embedding of the Python sources
    - [transcription_service.py] (segment fusion, the orchestrator),
    - [diarization_service.py]   (role mapping, fallback turns),
    - [noise_suppression.py]     (the guarded filter entry point),
    - [storage_service.py]       (integrity-checked reads, segment edits),
    followed by the properties the specification states about them.

    Conventions.  Times and confidences are Python floats, that is IEEE 754
    binary64 values: they are Rocq's primitive [float]s, and Python's
    comparison operators are [PrimFloat.ltb].  The integer literals the
    sources mix with them ([0], [30], ...) are written as the floats of the
    same value, which is how Python compares and subtracts them.  Calls of
    [logger] are left out: they do not influence any value.  A Python
    exception caught by [except Exception] is a value of [py_exn]. *)

From Stdlib Require Import Floats ZArith Lia Ascii.
From stdpp Require Import gmap strings list pretty.

Set Default Proof Using "Type".
Set Warnings "-register-all".

(** ** Python numbers *)

Module PyNum.

(** [max(a, b)]: the first maximal item wins; [b] replaces [a] only when
    [b > a]. *)
Definition py_max (a b : float) : float := if (a <? b)%float then b else a.

(** [min(a, b)]: [b] replaces [a] only when [b < a]. *)
Definition py_min (a b : float) : float := if (b <? a)%float then b else a.

(** A float that is not NaN. *)
Definition is_number (x : float) : Prop := Prim2SF x <> S754_nan.

(** [int(x)] of a float: truncation toward zero; [ValueError] on NaN and
    [OverflowError] on an infinity, both rendered as [None]. *)
Definition py_int (x : float) : option Z :=
  match Prim2SF x with
  | S754_zero _ => Some 0%Z
  | S754_finite s m e =>
      let mag := match e with
                 | Zneg p => Z.shiftr (Zpos m) (Zpos p)
                 | _ => Z.shiftl (Zpos m) e
                 end in
      Some (if s then Z.opp mag else mag)
  | S754_infinity _ | S754_nan => None
  end.

(** [float(n)] of a Python int, rounded to nearest even. *)
Definition py_float_of_int (n : Z) : float :=
  SF2Prim (binary_normalize prec emax n 0 false).

End PyNum.

Export PyNum.

(** ** Python strings *)

Module PyStr.

(** [s.split(sep)] for a one-character separator: the pieces between the
    occurrences of [sep], never an empty list. *)
Fixpoint py_split (sep : ascii) (s : string) : list string :=
  match s with
  | EmptyString => [EmptyString]
  | String c rest =>
      if Ascii.eqb c sep then EmptyString :: py_split sep rest
      else match py_split sep rest with
           | piece :: pieces => String c piece :: pieces
           | [] => [String c EmptyString]
           end
  end.

(** [pieces[-1]]. *)
Definition py_last (pieces : list string) : string :=
  default EmptyString (last pieces).


(** [os.path.basename(path)]: what follows the last slash. *)
Definition basename (path : string) : string := py_last (py_split "/" path).

End PyStr.

Export PyStr.

(** ** Exceptions *)

(** What [except Exception as e] binds: the text of [str(e)]. *)
Record py_exn := PyExn { exn_message : string }.

(** The outcome of a call that may raise. *)
Inductive outcome (A : Type) :=
| Returns (a : A)
| Raises (e : py_exn).
Arguments Returns {A} a.
Arguments Raises {A} e.

(** [try: body  except Exception as e: handler(e)]; the handler may
    return or raise in its turn. *)
Definition try_except {A} (body : outcome A) (handler : py_exn -> outcome A)
  : outcome A :=
  match body with
  | Returns a => Returns a
  | Raises e => handler e
  end.

#[global] Instance outcome_ret : MRet outcome := fun A a => Returns a.

#[global] Instance outcome_bind : MBind outcome := fun A B k c =>
  match c with
  | Returns a => k a
  | Raises e => Raises e
  end.

(** ** Segment fusion ([transcription_service.py]) *)

(** A Whisper segment: [segment["start"]], [segment["end"]],
    [segment["text"]] and the optional key ["confidence"]. *)
Record TranscribedSegment := {
  seg_start : float;
  seg_end : float;
  seg_text : string;
  seg_confidence : option float
}.

(** A diarization turn: [{"start": .., "end": .., "speaker": ..}]. *)
Record DiarizationTurn := {
  spk_start : float;
  spk_end : float;
  spk_speaker : string
}.

(** An entry of [combined_segments]. *)
Record FusedSegment := {
  fs_id : string;
  fs_speaker : string;
  fs_text : string;
  fs_start_time : float;
  fs_end_time : float;
  fs_confidence : float
}.

Module Fusion.

(** [overlap] as the inner loop computes it. *)
Definition overlap (segment : TranscribedSegment) (spk_segment : DiarizationTurn)
  : float :=
  let overlap_start := py_max (seg_start segment) (spk_start spk_segment) in
  let overlap_end := py_min (seg_end segment) (spk_end spk_segment) in
  py_max 0 (overlap_end - overlap_start).

(** One iteration of [for spk_segment in speaker_segments], on the pair
    [(best_speaker, max_overlap)]. *)
Definition speaker_step (segment : TranscribedSegment)
    (st : string * float) (spk_segment : DiarizationTurn) : string * float :=
  let '(best_speaker, max_overlap) := st in
  let overlap := overlap segment spk_segment in
  if (max_overlap <? overlap)%float
  then (spk_speaker spk_segment, overlap)
  else (best_speaker, max_overlap).

(** The inner loop from [best_speaker = "Unknown"], [max_overlap = 0]. *)
Definition find_speaker (segment : TranscribedSegment)
    (speaker_segments : list DiarizationTurn) : string * float :=
  fold_left (speaker_step segment) speaker_segments ("Unknown", 0%float).

Definition best_speaker segment speaker_segments : string :=
  fst (find_speaker segment speaker_segments).

(** What the inner loop has established after any number of turns: either
    nothing overlapped yet, or the state is that of the first turn whose
    overlap is the largest seen. *)
Inductive scanned (segment : TranscribedSegment)
  : list DiarizationTurn -> string * float -> Prop :=
| scanned_none seen :
    Forall (fun d => (0 <? overlap segment d)%float = false) seen ->
    scanned segment seen ("Unknown", 0%float)
| scanned_winner before winner after :
    (0 <? overlap segment winner)%float = true ->
    Forall (fun d => (overlap segment d <? overlap segment winner)%float = true)
           before ->
    Forall (fun d => (overlap segment winner <? overlap segment d)%float = false)
           after ->
    scanned segment (before ++ winner :: after)
            (spk_speaker winner, overlap segment winner).

Section WithUuid.

(** [str(uuid.uuid4())]: the [k]-th identifier drawn in this process.
    The number of identifiers drawn so far is threaded as state. *)
Variable uuid4 : nat -> string.

(** The dictionary appended for one transcribed segment. *)
Definition fuse_one (k : nat) (segment : TranscribedSegment)
    (speaker_segments : list DiarizationTurn) : FusedSegment :=
  {| fs_id := uuid4 k;
     fs_speaker := best_speaker segment speaker_segments;
     fs_text := seg_text segment;
     fs_start_time := seg_start segment;
     fs_end_time := seg_end segment;
     fs_confidence := default 0%float (seg_confidence segment) |}.

(** One iteration of [for segment in transcribed_segments]. *)
Definition combine_step (speaker_segments : list DiarizationTurn)
    (st : list FusedSegment * nat) (segment : TranscribedSegment)
  : list FusedSegment * nat :=
  let '(combined_segments, k) := st in
  (combined_segments ++ [fuse_one k segment speaker_segments], S k).

(** [_combine_transcription_with_speakers]: the fused list and the
    number of identifiers drawn, starting from [k] drawn before. *)
Definition _combine_transcription_with_speakers (k : nat)
    (transcribed_segments : list TranscribedSegment)
    (speaker_segments : list DiarizationTurn) : list FusedSegment * nat :=
  fold_left (combine_step speaker_segments) transcribed_segments ([], k).

End WithUuid.

End Fusion.

(** ** Diarization ([diarization_service.py]) *)

Module Diarization.

(** [_map_speaker_to_role]. *)
Definition _map_speaker_to_role (speaker : string) : string :=
  let speaker_id := py_last (py_split "_" speaker) in
  if String.eqb speaker_id "0" then "Judge"
  else if String.eqb speaker_id "1" then "Advocate (Plaintiff)"
  else if String.eqb speaker_id "2" then "Advocate (Defense)"
  else "Speaker " +:+ speaker_id.

Definition segment_length : float := 10%float.

Definition speaker_roles : list string :=
  ["Judge"; "Advocate (Plaintiff)"; "Advocate (Defense)"; "Witness"].

(** [int(duration / segment_length)], which raises on NaN and on an
    infinity. *)
Definition num_segments_of (duration : float) : outcome Z :=
  match py_int (duration / segment_length) with
  | Some n => Returns n
  | None => Raises (PyExn "cannot convert float to integer")
  end.

(** The dictionary appended in iteration [i] of the loop. *)
Definition mock_turn (duration : float) (i : nat) : DiarizationTurn :=
  let start_time := (py_float_of_int (Z.of_nat i) * segment_length)%float in
  let end_time :=
    py_min (py_float_of_int (Z.of_nat i + 1) * segment_length)%float duration in
  let speaker_idx := (i mod length speaker_roles)%nat in
  {| spk_start := start_time;
     spk_end := end_time;
     spk_speaker := default EmptyString (speaker_roles !! speaker_idx) |}.

(** [for i in range(num_segments): segments.append(..)]. *)
Definition mock_loop (duration : float) (num_segments : Z)
  : list DiarizationTurn :=
  fold_left (fun segments i => segments ++ [mock_turn duration i])
            (seq 0 (Z.to_nat num_segments)) [].

(** The turns returned by the handler of the [try] block. *)
Definition minimal_segments : list DiarizationTurn :=
  [ {| spk_start := 0; spk_end := 30; spk_speaker := "Judge" |};
    {| spk_start := 30; spk_end := 60; spk_speaker := "Advocate (Plaintiff)" |};
    {| spk_start := 60; spk_end := 90; spk_speaker := "Advocate (Defense)" |} ].

(** [_generate_mock_segments].  [import_librosa] is the outcome of the
    function's first statement, [import librosa], which stands before the
    [try] block: what it raises leaves the function.
    [librosa_duration audio_file] is the outcome of [librosa.load] followed
    by [librosa.get_duration]: the duration in seconds, or the exception
    either call raised. *)
Definition _generate_mock_segments
    (import_librosa : outcome unit)
    (librosa_duration : string -> outcome float) (audio_file : string)
  : outcome (list DiarizationTurn) :=
  _ ← import_librosa;
  try_except
    (duration ← librosa_duration audio_file;
     num_segments ← num_segments_of duration;
     mret (mock_loop duration num_segments))
    (fun e => mret minimal_segments).

(** One track of the pyannote result: [(turn, _, speaker)]. *)
Record Track := {
  turn_start : float;
  turn_end : float;
  track_label : string
}.

(** What the constructor leaves behind: [self.diarization_available]
    and, when it is set, the pipeline, whose call yields the tracks of
    [itertracks(yield_label=True)] or raises. *)
Record DiarizationService := {
  diarization_available : bool;
  pipeline : string -> outcome (list Track)
}.

(** [diarize]; the fallback it calls from its [except] clause is outside
    every [try], so what the fallback raises leaves [diarize]. *)
Definition diarize (self : DiarizationService)
    (import_librosa : outcome unit)
    (librosa_duration : string -> outcome float) (audio_file : string)
  : outcome (list DiarizationTurn) :=
  if negb (diarization_available self)
  then _generate_mock_segments import_librosa librosa_duration audio_file
  else
    try_except
      (tracks ← pipeline self audio_file;
       mret (fold_left
               (fun segments t =>
                  segments ++ [ {| spk_start := turn_start t;
                                   spk_end := turn_end t;
                                   spk_speaker := _map_speaker_to_role (track_label t) |} ])
               tracks []))
      (fun e =>
         _generate_mock_segments import_librosa librosa_duration audio_file).

End Diarization.


(** ** Noise suppression ([noise_suppression.py]) *)

Module NoiseSuppression.

Section Process.

(** A loaded signal ([np.ndarray]). *)
Variable Audio : Type.

(** The calls [process] makes in its [try] block.  The spectral
    subtraction itself is numpy and librosa arithmetic on the samples; here
    it is a call that yields the filtered signal or raises. *)
Record AudioLibs := {
  librosa_load : string -> outcome (Audio * Z);
  _spectral_subtraction : Audio -> Z -> outcome Audio;
  named_temporary_file : outcome string;
  sf_write : string -> Audio -> Z -> outcome unit
}.

(** [NoiseSuppression.process], given the module-level flag
    [AUDIO_LIBS_AVAILABLE]. *)
Definition process (AUDIO_LIBS_AVAILABLE : bool) (libs : AudioLibs)
    (audio_file : string) : outcome string :=
  if negb AUDIO_LIBS_AVAILABLE then mret audio_file
  else
    try_except
      ('(audio, sample_rate) ← librosa_load libs audio_file;
       audio_filtered ← _spectral_subtraction libs audio sample_rate;
       cleaned_audio_path ← named_temporary_file libs;
       _ ← sf_write libs cleaned_audio_path audio_filtered sample_rate;
       mret cleaned_audio_path)
      (fun e => mret audio_file).

End Process.

End NoiseSuppression.

(** ** The orchestrator ([CourtTranscriptionService.process_audio]) *)

Module Orchestrator.

Record Metadata := {
  md_created_at : string;
  md_audio_file : string;
  md_processing_time : float;
  md_model : string;
  md_device : string;
  md_speakers_detected : nat;
  md_case_id : option string
}.

Record CaseDetails := {
  cd_case_id : string;
  cd_case_title : string;
  cd_court : string;
  cd_judge : string;
  cd_date : string
}.

Record Transcript := {
  tr_id : string;
  tr_segments : list FusedSegment;
  tr_metadata : Metadata;
  tr_case_details : option CaseDetails;
  tr_status : string
}.

(** The collaborators injected into the service, each call with its
    outcome.  [model_transcribe f] stands for
    [self.model.transcribe(f)["segments"]], both inside one [try];
    [model_name] is the outcome of reading [self.model.name], which stands
    outside every [try]: it raises [AttributeError] on a model object that
    has no attribute [name], as the class of the model that
    [whisper.load_model] returns has none; [device] is
    [str(self.device)]. *)
Record Services := {
  noise_suppression_process : string -> outcome string;
  diarization_service_diarize : string -> outcome (list DiarizationTurn);
  model_transcribe : string -> outcome (list TranscribedSegment);
  storage_service_store_transcript : string -> Transcript -> outcome bool;
  model_name : outcome string;
  device : string
}.

(** The readings of the clock that end up in the transcript. *)
Record Clock := {
  start_time : float;
  metadata_time : float;
  now_isoformat : string;
  now_date : string
}.

(** [len(set([s["speaker"] for s in speaker_segments])) if speaker_segments else 0] *)
Definition speakers_detected (speaker_segments : list DiarizationTurn) : nat :=
  match speaker_segments with
  | [] => 0
  | _ => size (list_to_set (spk_speaker <$> speaker_segments) : gset string)
  end.

(** [_get_case_details]. *)
Definition _get_case_details (clock : Clock) (case_id : string) : CaseDetails :=
  {| cd_case_id := case_id;
     cd_case_title := "Case #" +:+ case_id;
     cd_court := "District Court";
     cd_judge := "Hon. Judge Smith";
     cd_date := now_date clock |}.

(** [... if case_id else None]: [None] and the empty string are falsy. *)
Definition case_details_of (clock : Clock) (case_id : option string)
  : option CaseDetails :=
  match case_id with
  | Some c => if String.eqb c EmptyString then None else Some (_get_case_details clock c)
  | None => None
  end.

Section ProcessAudio.

Variable uuid4 : nat -> string.
Variable services : Services.
Variable clock : Clock.

(** The transcript assembled from the fused segments; [name] is the
    value of [self.model.name]. *)
Definition assemble (name : string) (transcript_id : string)
    (audio_file : string)
    (case_id : option string) (speaker_segments : list DiarizationTurn)
    (combined_segments : list FusedSegment) : Transcript :=
  {| tr_id := transcript_id;
     tr_segments := combined_segments;
     tr_metadata :=
       {| md_created_at := now_isoformat clock;
          md_audio_file := basename audio_file;
          md_processing_time := (metadata_time clock - start_time clock)%float;
          md_model := "whisper-" +:+ name;
          md_device := device services;
          md_speakers_detected := speakers_detected speaker_segments;
          md_case_id := case_id |};
     tr_case_details := case_details_of clock case_id;
     tr_status := "success" |}.

(** [process_audio], with [k] identifiers drawn before the call. *)
Definition process_audio (k : nat) (audio_file : string)
    (case_id : option string) : outcome Transcript :=
  clean_audio_file ←
    try_except (noise_suppression_process services audio_file)
               (fun e => mret audio_file);
  speaker_segments ←
    try_except (diarization_service_diarize services clean_audio_file)
               (fun e => mret []);
  transcribed_segments ←
    try_except (model_transcribe services clean_audio_file)
               (fun e => Raises (PyExn ("Speech recognition failed: "
                                        +:+ exn_message e)));
  let '(combined_segments, k') :=
    Fusion._combine_transcription_with_speakers
      uuid4 k transcribed_segments speaker_segments in
  let transcript_id := uuid4 k' in
  name ← model_name services;
  let transcript :=
    assemble name transcript_id audio_file case_id speaker_segments
             combined_segments in
  _ ← try_except
        (_ ← storage_service_store_transcript services transcript_id transcript;
         mret tt)
        (fun e => mret tt);
  mret transcript.

End ProcessAudio.

End Orchestrator.


(** ** Storage ([storage_service.py]) *)

(** The Python values [json.loads] produces. *)
Inductive json :=
| JNull
| JBool (b : bool)
| JInt (n : Z)
| JFloat (x : float)
| JStr (s : string)
| JList (items : list json)
| JDict (entries : list (string * json)).

Module PyDict.

(** [d.get(key)] on the entries of a dictionary, in insertion order. *)
Fixpoint dict_get (key : string) (entries : list (string * json)) : option json :=
  match entries with
  | [] => None
  | (k, v) :: rest => if String.eqb k key then Some v else dict_get key rest
  end.

(** [d[key] = value]: an existing key keeps its place, a new one goes last. *)
Fixpoint dict_setitem (key : string) (value : json)
    (entries : list (string * json)) : list (string * json) :=
  match entries with
  | [] => [(key, value)]
  | (k, v) :: rest =>
      if String.eqb k key then (k, value) :: rest
      else (k, v) :: dict_setitem key value rest
  end.

(** [obj.get(key, dflt)]: [AttributeError] unless [obj] is a dictionary. *)
Definition py_get (obj : json) (key : string) (dflt : json) : outcome json :=
  match obj with
  | JDict entries => Returns (default dflt (dict_get key entries))
  | _ => Raises (PyExn "object has no attribute 'get'")
  end.

(** A Python [str] is held as the bytes of its UTF-8 encoding; a byte of
    the form [10xxxxxx] continues a character. *)
Definition is_continuation (c : ascii) : bool :=
  (128 <=? nat_of_ascii c)%nat && (nat_of_ascii c <? 192)%nat.

(** The characters of a string, each with its bytes. *)
Fixpoint code_points (s : string) : list string :=
  match s with
  | EmptyString => []
  | String c rest =>
      let continued :=
        match rest with
        | String c' _ => is_continuation c'
        | EmptyString => false
        end in
      match code_points rest with
      | p :: ps =>
          if continued then String c p :: ps
          else String c EmptyString :: p :: ps
      | [] => [String c EmptyString]
      end
  end.

(** The characters of a string, as [for c in s] yields them. *)
Definition chars (s : string) : list json := JStr <$> code_points s.

(** The items [for x in obj] visits: [TypeError] unless [obj] is iterable. *)
Definition py_iter (obj : json) : outcome (list json) :=
  match obj with
  | JList items => Returns items
  | JDict entries => Returns ((fun kv => JStr (fst kv)) <$> entries)
  | JStr s => Returns (chars s)
  | _ => Raises (PyExn "object is not iterable")
  end.

(** [bool(obj)]. *)
Definition py_truthy (obj : json) : bool :=
  match obj with
  | JNull => false
  | JBool b => b
  | JInt n => negb (n =? 0)%Z
  | JFloat x => negb (x =? 0)%float
  | JStr s => negb (String.eqb s EmptyString)
  | JList items => match items with [] => false | _ => true end
  | JDict entries => match entries with [] => false | _ => true end
  end.

(** [obj == s] for a string [s]. *)
Definition py_eq_str (obj : json) (s : string) : bool :=
  match obj with
  | JStr s' => String.eqb s' s
  | _ => false
  end.

End PyDict.

Export PyDict.

Module Storage.

(** A row of the table [transcripts], without its primary key. *)
Record TranscriptRow := {
  row_data : string;
  row_created_at : string;
  row_updated_at : string;
  row_case_id : option string;
  row_hash : string
}.

(** A row of the table [audit_log]. *)
Record AuditRow := {
  log_id : string;
  log_transcript_id : string;
  log_action : string;
  log_user : string;
  log_timestamp : string;
  log_details : string
}.

(** The database file: [transcripts] keyed by [id], and the audit log in
    insertion order.  Its connections are taken to open and commit; what
    can fail in the model is what the Python code computes. *)
Record Database := {
  transcripts : gmap string TranscriptRow;
  audit_log : list AuditRow
}.

Section WithCodecs.

(** [hashlib.sha256(s.encode()).hexdigest()], [json.loads], [json.dumps]. *)
Variable sha256_hexdigest : string -> string.
Variable json_loads : string -> outcome json.
Variable json_dumps : json -> string.

(** [get_transcript]; Python's [None] is [JNull]. *)
Definition get_transcript (db : Database) (transcript_id : string)
  : outcome json :=
  try_except
    (match transcripts db !! transcript_id with
     | Some result =>
         let json_data := row_data result in
         let stored_hash := row_hash result in
         let computed_hash := sha256_hexdigest json_data in
         if negb (String.eqb computed_hash stored_hash) then mret JNull
         else json_loads json_data
     | None => mret JNull
     end)
    (fun e => mret JNull).

(** The loop over the segments: [None] when no segment matched, else the
    list with the first match edited ([break] leaves the rest unvisited). *)
Fixpoint update_loop (segment_id new_text : string) (segments : list json)
  : outcome (option (list json)) :=
  match segments with
  | [] => mret None
  | segment :: rest =>
      found ← py_get segment "id" JNull;
      if py_eq_str found segment_id then
        match segment with
        | JDict entries =>
            mret (Some (JDict (dict_setitem "text" (JStr new_text) entries) :: rest))
        | _ => Raises (PyExn "object does not support item assignment")
        end
      else
        later ← update_loop segment_id new_text rest;
        mret (cons segment <$> later)
  end.

(** The transcript after the loop edited, in place, the list under its
    key ["segments"]. *)
Definition with_segments (transcript : json) (segments : list json) : json :=
  match transcript with
  | JDict entries => JDict (dict_setitem "segments" (JList segments) entries)
  | _ => transcript
  end.

(** The [UPDATE transcripts SET data, updated_at, hash WHERE id]. *)
Definition update_row (json_data timestamp data_hash : string)
    (row : TranscriptRow) : TranscriptRow :=
  {| row_data := json_data;
     row_created_at := row_created_at row;
     row_updated_at := timestamp;
     row_case_id := row_case_id row;
     row_hash := data_hash |}.

(** [update_transcript_segment]: the returned flag and the database
    afterwards.  [timestamp] is [datetime.now().isoformat()] and [new_log_id]
    the identifier drawn for the audit row. *)
Definition update_transcript_segment (db : Database)
    (timestamp new_log_id : string)
    (transcript_id segment_id new_text user : string)
  : outcome (bool * Database) :=
  try_except
    (transcript ← get_transcript db transcript_id;
     if negb (py_truthy transcript) then mret (false, db)
     else
       segments ← py_get transcript "segments" (JList []);
       items ← py_iter segments;
       edited ← update_loop segment_id new_text items;
       match edited with
       | None => mret (false, db)
       | Some items' =>
           let json_data := json_dumps (with_segments transcript items') in
           let data_hash := sha256_hexdigest json_data in
           mret (true,
                 {| transcripts :=
                      alter (update_row json_data timestamp data_hash)
                            transcript_id (transcripts db);
                    audit_log :=
                      audit_log db ++
                      [ {| log_id := new_log_id;
                           log_transcript_id := transcript_id;
                           log_action := "update_segment";
                           log_user := user;
                           log_timestamp := timestamp;
                           log_details := "Updated segment " +:+ segment_id |} ] |})
       end)
    (fun e => mret (false, db)).

End WithCodecs.

End Storage.


(** ** More of the storage service: writes and deletions *)

Module PySized.

(** [len(obj)]: [TypeError] unless [obj] is a list, a dictionary or a
    string, whose length is the number of its characters. *)
Definition py_len (obj : json) : outcome nat :=
  match obj with
  | JList items => Returns (length items)
  | JDict entries => Returns (length entries)
  | JStr s => Returns (length (code_points s))
  | _ => Raises (PyExn "object has no len()")
  end.

(** [obj[key]] for a string key: [KeyError] on a dictionary without the
    key, [TypeError] on anything that is not a dictionary. *)
Definition py_getitem (obj : json) (key : string) : outcome json :=
  match obj with
  | JDict entries =>
      match dict_get key entries with
      | Some v => Returns v
      | None => Raises (PyExn ("'" +:+ key +:+ "'"))
      end
  | _ => Raises (PyExn "indices must be integers")
  end.

(** [obj[-1]]: the last item of a list, the last character of a string;
    [IndexError] when empty, [KeyError] on a dictionary, [TypeError]
    otherwise. *)
Definition py_last_item (obj : json) : outcome json :=
  match obj with
  | JList items =>
      match last items with
      | Some v => Returns v
      | None => Raises (PyExn "list index out of range")
      end
  | JStr s =>
      match last (chars s) with
      | Some v => Returns v
      | None => Raises (PyExn "string index out of range")
      end
  | JDict _ => Raises (PyExn "-1")
  | _ => Raises (PyExn "object is not subscriptable")
  end.

End PySized.

Export PySized.

Module StorageWrites.

Import Storage.

Section WithCodecs.

Variable sha256_hexdigest : string -> string.
Variable json_dumps : json -> string.

(** The text SQLite keeps for a number bound to a column of type TEXT. *)
Variable sqlite_number_text : json -> string.

(** Binding a Python value to the TEXT column [case_id]: [None] is NULL,
    a string is itself, a number is turned into text, a float that is NaN
    is bound as NULL, an integer outside 64 bits overflows, a list or a
    dictionary is not supported. *)
Definition bind_text (value : json) : outcome (option string) :=
  match value with
  | JNull => Returns None
  | JStr s => Returns (Some s)
  | JInt n =>
      if ((- 2 ^ 63 <=? n) && (n <? 2 ^ 63))%Z
      then Returns (Some (sqlite_number_text value))
      else Raises (PyExn "Python int too large to convert to SQLite INTEGER")
  | JBool _ => Returns (Some (sqlite_number_text value))
  | JFloat x =>
      if PrimFloat.is_nan x then Returns None
      else Returns (Some (sqlite_number_text value))
  | JList _ | JDict _ => Raises (PyExn "type is not supported")
  end.

(** [store_transcript]: the returned flag and the database afterwards.
    [timestamp] is [datetime.now().isoformat()]; [new_log_id] is the
    identifier drawn for the audit row, taken to be new to the log.  The
    first INSERT violates the primary key when the id is already there;
    nothing is committed when a later step raises. *)
Definition store_transcript (db : Database) (timestamp new_log_id : string)
    (transcript_id : string) (transcript_data : json)
  : outcome (bool * Database) :=
  try_except
    (let json_data := json_dumps transcript_data in
     let data_hash := sha256_hexdigest json_data in
     case_details ← py_get transcript_data "case_details" (JDict []);
     case_id ← py_get case_details "case_id" JNull;
     bound_case_id ← bind_text case_id;
     match transcripts db !! transcript_id with
     | Some _ => Raises (PyExn "UNIQUE constraint failed: transcripts.id")
     | None =>
         segments ← py_get transcript_data "segments" (JList []);
         segments_count ← py_len segments;
         mret (true,
               {| transcripts :=
                    <[transcript_id :=
                        {| row_data := json_data;
                           row_created_at := timestamp;
                           row_updated_at := timestamp;
                           row_case_id := bound_case_id;
                           row_hash := data_hash |}]> (transcripts db);
                  audit_log :=
                    audit_log db ++
                    [ {| log_id := new_log_id;
                         log_transcript_id := transcript_id;
                         log_action := "create";
                         log_user := "system";
                         log_timestamp := timestamp;
                         log_details :=
                           "Created transcript with "
                           +:+ pretty segments_count +:+ " segments" |} ] |})
     end)
    (fun e => mret (false, db)).

(** [delete_transcript]: the audit row is written before the row of the
    transcript is deleted, and both are committed together. *)
Definition delete_transcript (db : Database) (timestamp new_log_id : string)
    (transcript_id user : string) : outcome (bool * Database) :=
  try_except
    (match transcripts db !! transcript_id with
     | None => mret (false, db)
     | Some _ =>
         mret (true,
               {| transcripts := delete transcript_id (transcripts db);
                  audit_log :=
                    audit_log db ++
                    [ {| log_id := new_log_id;
                         log_transcript_id := transcript_id;
                         log_action := "delete";
                         log_user := user;
                         log_timestamp := timestamp;
                         log_details := "Transcript deleted" |} ] |})
     end)
    (fun e => mret (false, db)).

End WithCodecs.

End StorageWrites.

(** ** The transcript as the dictionary [process_audio] builds *)

Module TranscriptJson.

Import Orchestrator.

Definition option_json (value : option string) : json :=
  match value with
  | Some s => JStr s
  | None => JNull
  end.

Definition segment_json (f : FusedSegment) : json :=
  JDict [("id", JStr (fs_id f));
         ("speaker", JStr (fs_speaker f));
         ("text", JStr (fs_text f));
         ("start_time", JFloat (fs_start_time f));
         ("end_time", JFloat (fs_end_time f));
         ("confidence", JFloat (fs_confidence f))].

Definition metadata_json (m : Metadata) : json :=
  JDict [("created_at", JStr (md_created_at m));
         ("audio_file", JStr (md_audio_file m));
         ("processing_time", JFloat (md_processing_time m));
         ("model", JStr (md_model m));
         ("device", JStr (md_device m));
         ("speakers_detected", JInt (Z.of_nat (md_speakers_detected m)));
         ("case_id", option_json (md_case_id m))].

Definition case_details_json (c : option CaseDetails) : json :=
  match c with
  | Some c =>
      JDict [("case_id", JStr (cd_case_id c));
             ("case_title", JStr (cd_case_title c));
             ("court", JStr (cd_court c));
             ("judge", JStr (cd_judge c));
             ("date", JStr (cd_date c))]
  | None => JNull
  end.

(** The dictionary [transcript] of [process_audio], keys in the order the
    source writes them. *)
Definition transcript_json (t : Transcript) : json :=
  JDict [("id", JStr (tr_id t));
         ("segments", JList (segment_json <$> tr_segments t));
         ("metadata", metadata_json (tr_metadata t));
         ("case_details", case_details_json (tr_case_details t));
         ("status", JStr (tr_status t))].

End TranscriptJson.

(** ** The constructor of the diarization service *)

Module DiarizationInit.

Import Diarization.

(** [self.pipeline = None]: calling it raises. *)
Definition no_pipeline : string -> outcome (list Track) :=
  fun _ => Raises (PyExn "'NoneType' object is not callable").

(** [DiarizationService.__init__].  [hf_token] is
    [os.environ.get("HF_TOKEN")]; [from_pretrained token] is the outcome of
    [Pipeline.from_pretrained(.., use_auth_token=token).to(device)]. *)
Definition __init__ (PYANNOTE_AVAILABLE : bool) (hf_token : option string)
    (from_pretrained : string -> outcome (string -> outcome (list Track)))
  : DiarizationService :=
  match hf_token with
  | Some token =>
      if PYANNOTE_AVAILABLE && negb (String.eqb token EmptyString)
      then
        match from_pretrained token with
        | Returns loaded =>
            {| diarization_available := true; pipeline := loaded |}
        | Raises _ =>
            {| diarization_available := false; pipeline := no_pipeline |}
        end
      else {| diarization_available := false; pipeline := no_pipeline |}
  | None => {| diarization_available := false; pipeline := no_pipeline |}
  end.

End DiarizationInit.

(** ** Listing the transcripts ([list_transcripts]) *)

Module PySet.

(** The integer a float is, when it is one. *)
Definition float_integer (x : float) : option Z :=
  match Prim2SF x with
  | S754_zero _ => Some 0%Z
  | S754_finite s m e =>
      match e with
      | Zneg p =>
          if (Zpos m mod 2 ^ Zpos p =? 0)%Z
          then Some (if s then (- (Zpos m / 2 ^ Zpos p))%Z
                     else (Zpos m / 2 ^ Zpos p)%Z)
          else None
      | _ => Some (if s then (- Z.shiftl (Zpos m) e)%Z else Z.shiftl (Zpos m) e)
      end
  | S754_infinity _ | S754_nan => None
  end.

(** [True] and [False] are the integers 1 and 0. *)
Definition bool_integer (b : bool) : Z := if b then 1%Z else 0%Z.

(** Whether two hashable values are the same member of a [set]: [==],
    numbers being compared by value across [bool], [int] and [float]; the
    NaN that [json.loads] yields is one object and is found again by
    identity. *)
Definition py_set_eq (a b : json) : bool :=
  match a, b with
  | JNull, JNull => true
  | JStr s, JStr s' => String.eqb s s'
  | JBool x, JBool y => Bool.eqb x y
  | JBool x, JInt n | JInt n, JBool x => (bool_integer x =? n)%Z
  | JInt n, JInt n' => (n =? n')%Z
  | JBool x, JFloat f | JFloat f, JBool x =>
      match float_integer f with
      | Some n => (bool_integer x =? n)%Z
      | None => false
      end
  | JInt n, JFloat f | JFloat f, JInt n =>
      match float_integer f with
      | Some n' => (n =? n')%Z
      | None => false
      end
  | JFloat f, JFloat f' =>
      (f =? f')%float || (PrimFloat.is_nan f && PrimFloat.is_nan f')
  | _, _ => false
  end.

(** [hash(obj)] raises on a list and on a dictionary. *)
Definition py_hashable (obj : json) : bool :=
  match obj with
  | JList _ | JDict _ => false
  | _ => true
  end.

(** [len(set(items))]. *)
Definition py_set_size (items : list json) : outcome nat :=
  members ←
    foldl (fun (acc : outcome (list json)) item =>
             members ← acc;
             if negb (py_hashable item)
             then Raises (PyExn "unhashable type")
             else if existsb (py_set_eq item) members then mret members
             else mret (members ++ [item]))
          (Returns []) items;
  mret (length members).

End PySet.

Export PySet.

Module StorageListing.

(** A row as the query of [list_transcripts] selects it:
    [id, data, created_at, updated_at, case_id]. *)
Record ListedRow := {
  listed_id : string;
  listed_data : string;
  listed_created_at : string;
  listed_updated_at : string;
  listed_case_id : option string
}.

Section WithCodecs.

Variable json_loads : string -> outcome json.

(** [[s.get("speaker") for s in segments]]. *)
Fixpoint speakers_of (segments : list json) : outcome (list json) :=
  match segments with
  | [] => mret []
  | s :: rest =>
      speaker ← py_get s "speaker" JNull;
      speakers ← speakers_of rest;
      mret (speaker :: speakers)
  end.

(** The dictionary [summary] built for one row, for the given role. *)
Definition summary_of (user_role : string) (row : ListedRow) : outcome json :=
  data ← json_loads (listed_data row);
  segments ← py_get data "segments" (JList []);
  segments_count ← py_len segments;
  speakers_count ←
    (if py_truthy segments
     then items ← py_iter segments;
          speakers ← speakers_of items;
          py_set_size speakers
     else mret 0%nat);
  duration ←
    (if py_truthy segments
     then final ← py_last_item segments;
          py_get final "end_time" (JInt 0)
     else mret (JInt 0));
  let summary :=
    [("id", JStr (listed_id row));
     ("created_at", JStr (listed_created_at row));
     ("updated_at", JStr (listed_updated_at row));
     ("case_id", match listed_case_id row with
                 | Some c => JStr c
                 | None => JNull
                 end);
     ("segments_count", JInt (Z.of_nat segments_count));
     ("speakers_count", JInt (Z.of_nat speakers_count));
     ("duration", duration)] in
  if String.eqb user_role "judge" || String.eqb user_role "admin"
  then
    metadata ← py_get data "metadata" (JDict []);
    let summary := dict_setitem "metadata" metadata summary in
    case_details ← py_get data "case_details" JNull;
    if py_truthy case_details
    then mret (JDict (dict_setitem "case_details" case_details summary))
    else mret (JDict summary)
  else mret (JDict summary).

(** The loop [for row in cursor.fetchall()]. *)
Fixpoint summaries_of (user_role : string) (rows : list ListedRow)
  : outcome (list json) :=
  match rows with
  | [] => mret []
  | row :: rest =>
      summary ← summary_of user_role row;
      results ← summaries_of user_role rest;
      mret (summary :: results)
  end.

(** [list_transcripts], from the rows its query returned ([rows] is
    [cursor.fetchall()], or the exception the query raised): any exception
    turns the result into the empty list. *)
Definition list_transcripts (fetched : outcome (list ListedRow))
    (user_role : string) : outcome (list json) :=
  try_except
    (rows ← fetched; summaries_of user_role rows)
    (fun e => mret []).

End WithCodecs.

End StorageListing.

(** ** The HTTP handlers ([app.py])

    A handler is modelled from the user FastAPI has authenticated to the
    value it returns or the [HTTPException] it raises, before FastAPI
    validates the value against the response model.  The texts of the
    interpreter's own exception messages vary with its version; no property
    below relies on them. *)

Module Api.

Import Storage StorageWrites.

Record User := {
  username : string;
  full_name : option string;
  role : string
}.

(** [ROLES]. *)
Definition ROLES : gmap string (list string) :=
  list_to_map
    [("judge", ["read"; "edit"; "delete"]);
     ("advocate", ["read"]);
     ("clerk", ["read"; "metadata"]);
     ("admin", ["read"; "edit"; "delete"; "admin"])].

(** [has_permission]. *)
Definition has_permission (user : User) (required_permission : string) : bool :=
  match ROLES !! role user with
  | None => false
  | Some permissions => bool_decide (required_permission ∈ permissions)
  end.

(** What a handler does: it returns a value or raises an [HTTPException]. *)
Inductive http_result (A : Type) :=
| Responds (a : A)
| HTTPException (status_code : Z) (detail : string).
Arguments Responds {A} a.
Arguments HTTPException {A} status_code detail.

(** What the body of a handler's [try] does: it returns, raises an
    [HTTPException], or raises another exception. *)
Inductive attempt (A : Type) :=
| Done (a : A)
| RaisedHTTP (status_code : Z) (detail : string)
| RaisedOther (e : py_exn).
Arguments Done {A} a.
Arguments RaisedHTTP {A} status_code detail.
Arguments RaisedOther {A} e.

(** A WebSocket connection, known by its identity. *)
Definition WebSocket := nat.

Section Handlers.

Variable sha256_hexdigest : string -> string.
Variable json_loads : string -> outcome json.
Variable json_dumps : json -> string.

(** [str(e)] of an [HTTPException], as the framework defines it. *)
Variable http_exception_str : Z -> string -> string.

(** [connection.send_json(message)], which may raise. *)
Variable send_json : WebSocket -> json -> outcome unit.

(** [except Exception as e: raise HTTPException(500, prefix + str(e))]:
    [HTTPException] derives from [Exception], so the clause catches the
    handler's own 404 as well. *)
Definition except_Exception {A} (prefix : string) (body : attempt A)
  : http_result A :=
  match body with
  | Done a => Responds a
  | RaisedHTTP status_code detail =>
      HTTPException 500 (prefix +:+ http_exception_str status_code detail)
  | RaisedOther e => HTTPException 500 (prefix +:+ exn_message e)
  end.

(** A call that raises no [HTTPException] of its own, inside a [try]. *)
Definition attempt_of {A B} (c : outcome A) (k : A -> attempt B) : attempt B :=
  match c with
  | Returns a => k a
  | Raises e => RaisedOther e
  end.

(** [WebSocketManager.broadcast]. *)
Definition broadcast (active_connections : gmap string (list WebSocket))
    (client_id : string) (message : json) : outcome unit :=
  match active_connections !! client_id with
  | Some connections =>
      foldl (fun (sent : outcome unit) connection =>
               _ ← sent; send_json connection message)
            (Returns tt) connections
  | None => mret tt
  end.




(** The handler of [GET /api/transcript/{transcript_id}]. *)
Definition get_transcript (db : Database) (transcript_id : string)
    (user : User) : http_result json :=
  if negb (has_permission user "read")
  then HTTPException 403 "Not enough permissions"
  else
    except_Exception "Error retrieving transcript: "
      (attempt_of
         (Storage.get_transcript sha256_hexdigest json_loads db transcript_id)
         (fun transcript =>
            if negb (py_truthy transcript)
            then RaisedHTTP 404 "Transcript not found"
            else if String.eqb (role user) "clerk"
                    && has_permission user "metadata"
            then
              attempt_of (py_getitem transcript "metadata") (fun metadata =>
              attempt_of (py_get transcript "case_details" JNull)
                         (fun case_details =>
              Done (JDict [("transcript_id", JStr transcript_id);
                           ("segments", JList []);
                           ("metadata", metadata);
                           ("status", JStr "success");
                           ("case_details", case_details)])))
            else Done transcript)).

(** The handler of [PUT /api/transcript/{transcript_id}/segment/{segment_id}]:
    its result and the database afterwards. *)
Definition update_transcript_segment (db : Database)
    (active_connections : gmap string (list WebSocket))
    (timestamp new_log_id : string)
    (transcript_id segment_id text : string) (user : User)
  : http_result json * Database :=
  if negb (has_permission user "edit")
  then (HTTPException 403 "Not enough permissions", db)
  else
    match
      Storage.update_transcript_segment sha256_hexdigest json_loads json_dumps
        db timestamp new_log_id transcript_id segment_id text (username user)
    with
    | Raises e =>
        (except_Exception "Error updating segment: " (RaisedOther e), db)
    | Returns (updated, db') =>
        (except_Exception "Error updating segment: "
           (if updated
            then
              attempt_of
                (broadcast active_connections transcript_id
                   (JDict [("action", JStr "segment_updated");
                           ("segment_id", JStr segment_id);
                           ("text", JStr text);
                           ("updated_by", JStr (username user))]))
                (fun _ =>
                   Done (JDict [("status", JStr "success");
                                ("message",
                                 JStr "Segment updated successfully")]))
            else RaisedHTTP 404 "Segment not found"),
         db')
    end.

(** The handler of [DELETE /api/transcript/{transcript_id}]. *)
Definition delete_transcript (db : Database) (timestamp new_log_id : string)
    (transcript_id : string) (user : User) : http_result json * Database :=
  if negb (has_permission user "delete")
  then (HTTPException 403 "Not enough permissions", db)
  else
    match
      StorageWrites.delete_transcript db timestamp new_log_id transcript_id
        (username user)
    with
    | Raises e =>
        (except_Exception "Error deleting transcript: " (RaisedOther e), db)
    | Returns (deleted, db') =>
        (except_Exception "Error deleting transcript: "
           (if deleted
            then Done (JDict [("status", JStr "success");
                              ("message",
                               JStr "Transcript deleted successfully")])
            else RaisedHTTP 404 "Transcript not found"),
         db')
    end.

(** The handler of [GET /api/transcripts]; [fetched] is what the query of
    the storage service gives for the handler's [case_id], [limit] and
    [offset]. *)
Definition list_transcripts (fetched : outcome (list StorageListing.ListedRow))
    (user : User) : http_result (list json) :=
  if negb (has_permission user "read")
  then HTTPException 403 "Not enough permissions"
  else
    except_Exception "Error listing transcripts: "
      (attempt_of
         (StorageListing.list_transcripts json_loads fetched (role user))
         (fun transcripts => Done transcripts)).

End Handlers.

(** An entry of [USERS_DB]. *)
Record UserEntry := {
  entry_username : string;
  entry_hashed_password : string;
  entry_role : string;
  entry_full_name : option string
}.

(** [USERS_DB]. *)
Definition USERS_DB : gmap string UserEntry :=
  list_to_map
    [("judge1",
      {| entry_username := "judge1";
         entry_hashed_password := "hashed_judge1_password";
         entry_role := "judge";
         entry_full_name := Some "Hon. Judge Smith" |});
     ("advocate1",
      {| entry_username := "advocate1";
         entry_hashed_password := "hashed_advocate1_password";
         entry_role := "advocate";
         entry_full_name := Some "Adv. Jane Doe" |});
     ("clerk1",
      {| entry_username := "clerk1";
         entry_hashed_password := "hashed_clerk1_password";
         entry_role := "clerk";
         entry_full_name := Some "Court Clerk Johnson" |})].

(** [s.replace(old, new)] for a non-empty [old]: the occurrences of [old]
    are found from the left and do not overlap; [skip] counts the
    characters of an occurrence still to pass. *)
Fixpoint replace_from (old new : string) (skip : nat) (s : string) : string :=
  match s with
  | EmptyString => EmptyString
  | String c rest =>
      match skip with
      | S k => replace_from old new k rest
      | O =>
          if String.prefix old s
          then new +:+ replace_from old new (String.length old - 1) rest
          else String c (replace_from old new 0 rest)
      end
  end.

(** [s.replace(old, new)]; an empty [old] matches before every character
    and at the end. *)
Definition py_replace (s old new : string) : string :=
  match old with
  | EmptyString =>
      new +:+ String.concat new (code_points s)
      +:+ match s with EmptyString => EmptyString | _ => new end
  | _ => replace_from old new 0 s
  end.

(** [verify_password]. *)
Definition verify_password (plain_password hashed_password : string) : bool :=
  String.eqb plain_password (py_replace hashed_password "hashed_" EmptyString).

(** [get_user]. *)
Definition get_user (username : string) : option User :=
  match USERS_DB !! username with
  | Some user_dict =>
      Some {| username := entry_username user_dict;
              full_name := entry_full_name user_dict;
              role := entry_role user_dict |}
  | None => None
  end.

(** [authenticate_user]: the user, or [None] for Python's [False]. *)
Definition authenticate_user (username password : string) : option User :=
  match get_user username with
  | None => None
  | Some user =>
      match USERS_DB !! username with
      | Some user_dict =>
          if negb (verify_password password (entry_hashed_password user_dict))
          then None
          else Some user
      | None => None
      end
  end.

End Api.

(** * Properties *)

(** ** The order of floats *)

Module PyNumFacts.

Lemma SFltb_numbers a b :
  SFltb a b = true -> a <> S754_nan /\ b <> S754_nan.
Proof.
  unfold SFltb.
  destruct a, b; simpl; try discriminate; intros _; split; discriminate.
Qed.

Lemma SFltb_trans a b c :
  SFltb a b = true -> SFltb b c = true -> SFltb a c = true.
Proof.
  unfold SFltb.
  destruct a as [sa|sa| |sa ma ea], b as [sb|sb| |sb mb eb],
           c as [sc|sc| |sc mc ec];
    simpl; try discriminate; try reflexivity;
    repeat match goal with s : bool |- _ => destruct s end;
    simpl; try discriminate; try reflexivity.
  all: rewrite ?Pos.compare_cont_spec; simpl.
  all: destruct (Z.compare_spec ea eb), (Z.compare_spec eb ec),
         (Z.compare_spec ea ec);
       try discriminate; try reflexivity; try lia; subst.
  all: destruct (Pos.compare_spec ma mb), (Pos.compare_spec mb mc),
         (Pos.compare_spec ma mc);
       simpl; try discriminate; try reflexivity; try lia.
Qed.

(** [x <= a] and [a < c] give [x < c], when [x] and [a] are numbers. *)
Lemma SFltb_le_lt x a c :
  x <> S754_nan -> a <> S754_nan ->
  SFltb a x = false -> SFltb a c = true -> SFltb x c = true.
Proof.
  unfold SFltb.
  destruct x as [sx|sx| |sx mx ex], a as [sa|sa| |sa ma ea],
           c as [sc|sc| |sc mc ec];
    simpl; try discriminate; try reflexivity; try congruence;
    intros _ _;
    repeat match goal with s : bool |- _ => destruct s end;
    simpl; try discriminate; try reflexivity.
  all: rewrite ?Pos.compare_cont_spec; simpl.
  all: destruct (Z.compare_spec ea ex), (Z.compare_spec ea ec),
         (Z.compare_spec ex ec);
       try discriminate; try reflexivity; try lia; subst.
  all: destruct (Pos.compare_spec ma mx), (Pos.compare_spec ma mc),
         (Pos.compare_spec mx mc);
       simpl; try discriminate; try reflexivity; try lia.
Qed.

Lemma SFltb_asym a b : SFltb a b = true -> SFltb b a = false.
Proof.
  intros Hab. destruct (SFltb b a) eqn:Hba; [|reflexivity].
  pose proof (SFltb_trans _ _ _ Hab Hba) as Haa.
  revert Haa. unfold SFltb. clear.
  destruct a as [s|s| |s m e]; simpl; try discriminate;
    destruct s; try discriminate;
    rewrite Z.compare_refl, Pos.compare_cont_refl; discriminate.
Qed.

Lemma ltb_numbers (a b : float) :
  (a <? b)%float = true -> is_number a /\ is_number b.
Proof. rewrite ltb_spec. apply SFltb_numbers. Qed.

Lemma ltb_trans (a b c : float) :
  (a <? b)%float = true -> (b <? c)%float = true -> (a <? c)%float = true.
Proof. rewrite !ltb_spec. apply SFltb_trans. Qed.

Lemma ltb_le_lt (x a c : float) :
  is_number x -> is_number a ->
  (a <? x)%float = false -> (a <? c)%float = true -> (x <? c)%float = true.
Proof. rewrite !ltb_spec. apply SFltb_le_lt. Qed.

Lemma ltb_asym (a b : float) :
  (a <? b)%float = true -> (b <? a)%float = false.
Proof. rewrite !ltb_spec. apply SFltb_asym. Qed.

Lemma zero_is_number : is_number 0%float.
Proof. unfold is_number. vm_compute. discriminate. Qed.

(** [max(0, x)] is never NaN, and is positive exactly when [x] is. *)
Lemma py_max0_number (x : float) : is_number (py_max 0 x).
Proof.
  unfold py_max. destruct (0 <? x)%float eqn:H.
  - apply (ltb_numbers _ _ H).
  - apply zero_is_number.
Qed.

Lemma py_max0_zero (x : float) :
  (0 <? x)%float = false -> py_max 0 x = 0%float.
Proof. unfold py_max. now intros ->. Qed.

Lemma py_max0_positive (x : float) :
  (0 <? py_max 0 x)%float = (0 <? x)%float.
Proof.
  unfold py_max. destruct (0 <? x)%float eqn:H; [exact H | reflexivity].
Qed.

(** [x <= y], for numbers, is the failure of [y < x]. *)
Lemma SFleb_of_not_ltb (X Y : spec_float) :
  X <> S754_nan -> Y <> S754_nan -> SFltb Y X = false -> SFleb X Y = true.
Proof.
  unfold SFltb, SFleb.
  destruct X as [sx | sx | | sx mx ex], Y as [sy | sy | | sy my ey];
    simpl; try congruence; intros _ _;
    repeat match goal with s : bool |- _ => destruct s end;
    simpl; try discriminate; try reflexivity.
  all: rewrite ?Pos.compare_cont_spec; simpl.
  all: destruct (Z.compare_spec ex ey), (Z.compare_spec ey ex);
       try discriminate; try reflexivity; try lia; subst.
  all: destruct (Pos.compare_spec mx my), (Pos.compare_spec my mx);
       simpl; try discriminate; try reflexivity; try lia.
Qed.

(** [a < e] and [e <= e'] give [a < e'], when [e'] is a number. *)
Lemma SFltb_lt_le a e e' :
  e' <> S754_nan ->
  SFltb a e = true -> SFltb e' e = false -> SFltb a e' = true.
Proof.
  unfold SFltb.
  destruct a as [sa|sa| |sa ma ea], e as [se|se| |se me ee],
           e' as [sc|sc| |sc mc ec];
    simpl; try discriminate; try reflexivity; try congruence;
    intros _;
    repeat match goal with s : bool |- _ => destruct s end;
    simpl; try discriminate; try reflexivity.
  all: rewrite ?Pos.compare_cont_spec; simpl.
  all: destruct (Z.compare_spec ea ee), (Z.compare_spec ec ee),
         (Z.compare_spec ea ec);
       try discriminate; try reflexivity; try lia; subst.
  all: destruct (Pos.compare_spec ma me), (Pos.compare_spec mc me),
         (Pos.compare_spec ma mc);
       simpl; try discriminate; try reflexivity; try lia.
Qed.

Lemma ltb_lt_le (a e e' : float) :
  is_number e' ->
  (a <? e)%float = true -> (e' <? e)%float = false -> (a <? e')%float = true.
Proof. rewrite !ltb_spec. apply SFltb_lt_le. Qed.

Lemma ltb_irrefl (x : float) : (x <? x)%float = false.
Proof.
  destruct (x <? x)%float eqn:H; [| reflexivity].
  now rewrite (ltb_asym _ _ H) in H.
Qed.

(** *** The sign of a difference

    A binary64 value is [m * 2^e] with a mantissa of at most [prec] bits,
    of exactly [prec] bits above the least exponent; so the order of two
    values of one sign is the order of their exponents, then of their
    mantissas, and the rounded difference of [x <= y] is not positive. *)

Lemma digits2_pos_bounds (m : positive) :
  (2 ^ (Zpos (digits2_pos m) - 1) <= Zpos m < 2 ^ Zpos (digits2_pos m))%Z.
Proof.
  induction m as [p IH | p IH |]; cbn [digits2_pos].
  - rewrite Pos2Z.inj_succ.
    replace (Z.succ (Z.pos (digits2_pos p)) - 1)%Z
      with (Z.succ (Z.pos (digits2_pos p) - 1))%Z by lia.
    rewrite !Z.pow_succ_r by lia. lia.
  - rewrite Pos2Z.inj_succ.
    replace (Z.succ (Z.pos (digits2_pos p)) - 1)%Z
      with (Z.succ (Z.pos (digits2_pos p) - 1))%Z by lia.
    rewrite !Z.pow_succ_r by lia. lia.
  - cbn. lia.
Qed.

Lemma shl_align_fst (m : positive) (e e' : Z) :
  (e' <= e)%Z ->
  Zpos (fst (shl_align m e e')) = (Zpos m * 2 ^ (e - e'))%Z.
Proof.
  intros Hle. unfold shl_align.
  destruct (e' - e)%Z as [| d | d] eqn:Hd; cbn [fst].
  - replace (e - e')%Z with 0%Z by lia. cbn. lia.
  - lia.
  - replace (e - e')%Z with (Zpos d) by lia.
    change (Pos.iter xO m d) with (shift_pos d m).
    rewrite shift_pos_correct. unfold Zpower_pos.
    change (Pos.iter (Z.mul 2) 1%Z d) with (Z.pow_pos 2 d). cbn. lia.
Qed.

Lemma binary_normalize_nonpos (D e : Z) :
  (D <= 0)%Z ->
  SFltb (S754_zero false) (binary_normalize prec emax D e false) = false.
Proof.
  intros HD. destruct D as [| p | p]; [reflexivity | lia |].
  unfold binary_normalize, binary_round.
  destruct (shl_align p e _) as [mz ez].
  unfold binary_round_aux.
  destruct (shr_fexp prec emax (Z.pos mz) ez loc_Exact) as [mrs' e'].
  destruct (shr_fexp prec emax _ e' loc_Exact) as [mrs'' e''].
  destruct (shr_m mrs''); [reflexivity | | reflexivity].
  destruct (Z.leb e'' (emax - prec)); reflexivity.
Qed.

Lemma canonical_bounds (m : positive) (e : Z) :
  bounded prec emax m e = true ->
  (Zpos m < 2 ^ prec)%Z
  /\ (SpecFloat.emin prec emax <= e)%Z
  /\ (SpecFloat.emin prec emax < e -> 2 ^ (prec - 1) <= Zpos m)%Z.
Proof.
  unfold bounded, canonical_mantissa, fexp.
  intros [Hcanon _]%andb_prop. apply Z.eqb_eq in Hcanon.
  pose proof (digits2_pos_bounds m) as [Hlow Hhigh].
  set (d := Zpos (digits2_pos m)) in *.
  assert (Hd : (0 < d)%Z) by (unfold d; lia).
  split; [| split].
  - assert (d <= prec)%Z by lia.
    eapply Z.lt_le_trans; [exact Hhigh |].
    apply Z.pow_le_mono_r; lia.
  - lia.
  - intros Hnormal. assert (d = prec) as <- by lia. exact Hlow.
Qed.

Lemma SFsub_le_not_positive (X Y : spec_float) :
  valid_binary X = true -> valid_binary Y = true ->
  SFleb X Y = true ->
  SFltb (S754_zero false) (SF64sub X Y) = false.
Proof.
  intros HX HY Hle. unfold SF64sub, SFsub.
  destruct X as [sx | sx | | sx mx ex], Y as [sy | sy | | sy my ey];
    try reflexivity;
    try (destruct sx; try destruct sy; try reflexivity; discriminate Hle);
    try (destruct sy; try destruct sx; try reflexivity; discriminate Hle).
  apply binary_normalize_nonpos.
  cbn [valid_binary SpecFloat.valid_binary] in HX, HY.
  apply canonical_bounds in HX as (HXhigh & HXmin & HXlow).
  apply canonical_bounds in HY as (HYhigh & HYmin & HYlow).
  rewrite !shl_align_fst by lia.
  unfold SFleb, SFcompare in Hle.
  assert (Hpow : forall a b, (a < b)%Z -> (2 <= 2 ^ (b - a))%Z).
  { intros a b Hab. change 2%Z with (2 ^ 1)%Z at 1.
    apply Z.pow_le_mono_r; lia. }
  assert (Hprec : (2 ^ prec = 2 * 2 ^ (prec - 1))%Z) by reflexivity.
  destruct sx, sy; cbn [cond_Zopp]; try discriminate Hle.
  - (* both negative *)
    destruct (Z.compare_spec ex ey) as [-> | Hlt | Hgt]; try discriminate Hle.
    + rewrite Z.min_id, Z.sub_diag, !Z.mul_1_r.
      rewrite Pos.compare_cont_spec in Hle. cbn in Hle.
      destruct (Pos.compare_spec mx my); try discriminate Hle; lia.
    + rewrite Z.min_r by lia. rewrite Z.sub_diag, Z.mul_1_r.
      specialize (Hpow _ _ Hgt). specialize (HXlow ltac:(lia)). nia.
  - (* a negative minus a positive *)
    assert (0 < 2 ^ (ex - Z.min ex ey))%Z by (apply Z.pow_pos_nonneg; lia).
    assert (0 < 2 ^ (ey - Z.min ex ey))%Z by (apply Z.pow_pos_nonneg; lia).
    nia.
  - (* both positive *)
    destruct (Z.compare_spec ex ey) as [-> | Hlt | Hgt]; try discriminate Hle.
    + rewrite Z.min_id, Z.sub_diag, !Z.mul_1_r.
      rewrite Pos.compare_cont_spec in Hle. cbn in Hle.
      destruct (Pos.compare_spec mx my); try discriminate Hle; lia.
    + rewrite Z.min_l by lia. rewrite Z.sub_diag, Z.mul_1_r.
      specialize (Hpow _ _ Hlt). specialize (HYlow ltac:(lia)). nia.
Qed.

(** [x - y > 0] only when [x > y]. *)
Lemma sub_positive_lt (x y : float) :
  (0 <? x - y)%float = true -> (y <? x)%float = true.
Proof.
  intros Hpos. destruct (y <? x)%float eqn:Hlt; [reflexivity | exfalso].
  rewrite ltb_spec in Hpos, Hlt. rewrite sub_spec in Hpos.
  change (Prim2SF 0) with (S754_zero false) in Hpos.
  pose proof (Prim2SF_valid x) as HX. pose proof (Prim2SF_valid y) as HY.
  destruct (Prim2SF x) as [sx | sx | | sx mx ex] eqn:Ex;
    try discriminate Hpos;
    destruct (Prim2SF y) as [sy | sy | | sy my ey] eqn:Ey;
    try discriminate Hpos.
  all: rewrite SFsub_le_not_positive in Hpos;
       [discriminate Hpos | assumption | assumption |].
  all: apply SFleb_of_not_ltb; [discriminate | discriminate | exact Hlt].
Qed.

End PyNumFacts.

(** ** Segment fusion *)

Module FusionFacts.

Import PyNumFacts Fusion.

Lemma overlap_number segment spk_segment :
  is_number (overlap segment spk_segment).
Proof. apply py_max0_number. Qed.

Lemma find_speaker_snoc segment speaker_segments spk_segment :
  find_speaker segment (speaker_segments ++ [spk_segment])
  = speaker_step segment (find_speaker segment speaker_segments) spk_segment.
Proof. unfold find_speaker. now rewrite fold_left_app. Qed.

Lemma scanned_step segment seen st spk_segment :
  scanned segment seen st ->
  scanned segment (seen ++ [spk_segment]) (speaker_step segment st spk_segment).
Proof.
  intros Hs. unfold speaker_step.
  destruct Hs as [seen Hnone | before winner after Hpos Hbefore Hafter].
  - destruct (0 <? overlap segment spk_segment)%float eqn:Hlt.
    + apply scanned_winner with (after := []); [exact Hlt | | constructor].
      eapply Forall_impl; [exact Hnone |]. cbn beta. intros d Hd.
      apply ltb_le_lt with (a := 0%float);
        auto using overlap_number, zero_is_number.
    + apply scanned_none. apply Forall_app. split; [exact Hnone |].
      repeat constructor. exact Hlt.
  - destruct (overlap segment winner <? overlap segment spk_segment)%float
      eqn:Hlt.
    + apply scanned_winner with (after := []).
      * eapply ltb_trans; eassumption.
      * apply Forall_app. split; [| apply Forall_cons; split].
        -- eapply Forall_impl; [exact Hbefore |]. cbn beta. intros d Hd.
           eapply ltb_trans; eassumption.
        -- exact Hlt.
        -- eapply Forall_impl; [exact Hafter |]. cbn beta. intros d Hd.
           apply ltb_le_lt with (a := overlap segment winner);
             auto using overlap_number.
      * constructor.
    + rewrite <- app_assoc. cbn [app].
      change (winner :: after ++ [spk_segment])
        with (winner :: (after ++ [spk_segment])).
      apply scanned_winner; [exact Hpos | exact Hbefore |].
      apply Forall_app. split; [exact Hafter |].
      repeat constructor. exact Hlt.
Qed.

Lemma find_speaker_scanned segment speaker_segments :
  scanned segment speaker_segments (find_speaker segment speaker_segments).
Proof.
  induction speaker_segments as [| spk_segment seen IH] using rev_ind.
  - apply scanned_none. constructor.
  - rewrite find_speaker_snoc. apply scanned_step. exact IH.
Qed.

Section WithUuid.

Variable uuid4 : nat -> string.

Lemma combine_from (speaker_segments : list DiarizationTurn)
    (transcribed_segments : list TranscribedSegment)
    (done : list FusedSegment) (k : nat) :
  fold_left (combine_step uuid4 speaker_segments) transcribed_segments (done, k)
  = (done ++ imap (fun i segment => fuse_one uuid4 (k + i) segment speaker_segments)
                  transcribed_segments,
     k + length transcribed_segments).
Proof.
  revert done k.
  induction transcribed_segments as [| segment rest IH]; intros done k.
  - cbn. now rewrite app_nil_r, Nat.add_0_r.
  - cbn [fold_left combine_step imap length]. rewrite IH.
    rewrite <- app_assoc. cbn [app]. rewrite Nat.add_0_r.
    f_equal; [| lia]. f_equal. f_equal.
    apply imap_ext. intros i x _. cbn. f_equal. lia.
Qed.

(** The outer loop builds one dictionary per transcribed segment, in
    order, drawing one identifier for each. *)
Lemma combine_imap k transcribed_segments speaker_segments :
  _combine_transcription_with_speakers uuid4 k transcribed_segments
                                        speaker_segments
  = (imap (fun i segment => fuse_one uuid4 (k + i) segment speaker_segments)
          transcribed_segments,
     k + length transcribed_segments).
Proof. unfold _combine_transcription_with_speakers. now rewrite combine_from. Qed.

Lemma combine_lookup k transcribed_segments speaker_segments i :
  fst (_combine_transcription_with_speakers uuid4 k transcribed_segments
                                            speaker_segments) !! i
  = (fun segment => fuse_one uuid4 (k + i) segment speaker_segments)
      <$> transcribed_segments !! i.
Proof. rewrite combine_imap. cbn [fst]. apply list_lookup_imap. Qed.

End WithUuid.

End FusionFacts.

(** ** Claims about the fusion of segments and turns *)

Module FusionClaims.

Import PyNumFacts Fusion FusionFacts.

(** C1. Fusion returns one fused segment per transcribed segment, in the
    order of the input: the i-th output carries the text, start, end and
    confidence of the i-th input, the confidence being [0.0] when the
    segment has none. *)
Theorem combine_one_per_segment_in_order
    (uuid4 : nat -> string) (k : nat)
    (transcribed_segments : list TranscribedSegment)
    (speaker_segments : list DiarizationTurn) :
  let combined_segments :=
    fst (_combine_transcription_with_speakers uuid4 k transcribed_segments
                                              speaker_segments) in
  length combined_segments = length transcribed_segments
  /\ (forall i,
        combined_segments !! i
        = (fun segment =>
             {| fs_id := uuid4 (k + i);
                fs_speaker := best_speaker segment speaker_segments;
                fs_text := seg_text segment;
                fs_start_time := seg_start segment;
                fs_end_time := seg_end segment;
                fs_confidence :=
                  match seg_confidence segment with
                  | Some c => c
                  | None => 0%float
                  end |}) <$> transcribed_segments !! i)
  /\ (fun f => (fs_text f, fs_start_time f, fs_end_time f, fs_confidence f))
       <$> combined_segments
     = (fun segment =>
          (seg_text segment, seg_start segment, seg_end segment,
           default 0%float (seg_confidence segment)))
       <$> transcribed_segments.
Proof.
  cbv zeta. split; [| split].
  - rewrite combine_imap. cbn [fst]. apply length_imap.
  - intros i. rewrite combine_lookup.
    destruct (transcribed_segments !! i) as [segment|]; [| reflexivity].
    cbn. unfold fuse_one. now destruct (seg_confidence segment).
  - rewrite combine_imap. cbn [fst].
    apply list_eq. intros i.
    rewrite !list_lookup_fmap, list_lookup_imap.
    now destruct (transcribed_segments !! i).
Qed.

(** C2. A turn replaces the best speaker only when its overlap is
    strictly larger than the running maximum, which starts at 0; so the
    loop ends on the first turn that attains the largest overlap.  For
    the segment [10.0, 20.0] and the turns (0, 15, Judge), (15, 25, Clerk)
    in that order both overlaps are 5.0 and the fused speaker is Judge. *)
Theorem strict_overlap_first_turn_wins :
  (forall segment best_speaker max_overlap spk_segment,
      ((max_overlap <? overlap segment spk_segment)%float = true ->
       speaker_step segment (best_speaker, max_overlap) spk_segment
       = (spk_speaker spk_segment, overlap segment spk_segment))
      /\ ((max_overlap <? overlap segment spk_segment)%float = false ->
          speaker_step segment (best_speaker, max_overlap) spk_segment
          = (best_speaker, max_overlap)))
  /\ (forall segment speaker_segments,
        (find_speaker segment speaker_segments = ("Unknown", 0%float)
         /\ Forall (fun d => (0 <? overlap segment d)%float = false)
                   speaker_segments)
        \/ exists before winner after,
            speaker_segments = before ++ winner :: after
            /\ find_speaker segment speaker_segments
               = (spk_speaker winner, overlap segment winner)
            /\ (0 <? overlap segment winner)%float = true
            /\ Forall (fun d => (overlap segment d <? overlap segment winner)%float
                                = true) before
            /\ Forall (fun d => (overlap segment winner <? overlap segment d)%float
                                = false) after)
  /\ (forall text confidence,
        let segment :=
          {| seg_start := 10; seg_end := 20; seg_text := text;
             seg_confidence := confidence |} in
        let judge := {| spk_start := 0; spk_end := 15; spk_speaker := "Judge" |} in
        let clerk := {| spk_start := 15; spk_end := 25; spk_speaker := "Clerk" |} in
        overlap segment judge = 5%float
        /\ overlap segment clerk = 5%float
        /\ find_speaker segment [judge; clerk] = ("Judge", 5%float)
        /\ forall uuid4 k,
            fs_speaker <$>
              fst (_combine_transcription_with_speakers uuid4 k [segment]
                                                        [judge; clerk])
            = ["Judge"]).
Proof.
  split; [| split].
  - intros segment best max_overlap spk_segment. unfold speaker_step.
    split; intros ->; reflexivity.
  - intros segment speaker_segments.
    destruct (find_speaker_scanned segment speaker_segments)
      as [seen Hnone | before winner after Hpos Hbefore Hafter].
    + left. split; [reflexivity | exact Hnone].
    + right. exists before, winner, after. repeat split; assumption.
  - intros text confidence. cbv zeta.
    assert (Hfind : find_speaker
                      {| seg_start := 10; seg_end := 20; seg_text := text;
                         seg_confidence := confidence |}
                      [ {| spk_start := 0; spk_end := 15; spk_speaker := "Judge" |};
                        {| spk_start := 15; spk_end := 25; spk_speaker := "Clerk" |} ]
                    = ("Judge", 5%float))
      by (vm_compute; reflexivity).
    split; [vm_compute; reflexivity |].
    split; [vm_compute; reflexivity |].
    split; [exact Hfind |].
    intros uuid4 k. rewrite combine_imap. cbn [fst imap fmap list_fmap].
    unfold fuse_one, best_speaker. cbn [fs_speaker]. now rewrite Hfind.
Qed.

(** C5. With no diarization turn at all, every fused segment has the
    speaker "Unknown". *)
Theorem combine_without_turns_all_unknown
    (uuid4 : nat -> string) (k : nat)
    (transcribed_segments : list TranscribedSegment) :
  Forall (fun f => fs_speaker f = "Unknown")
         (fst (_combine_transcription_with_speakers uuid4 k
                 transcribed_segments [])).
Proof.
  rewrite combine_imap. cbn [fst].
  apply Forall_lookup_2. intros i f. rewrite list_lookup_imap.
  destruct (transcribed_segments !! i); cbn; [| discriminate].
  intros [= <-]. reflexivity.
Qed.

(** A positive overlap means that the two intervals meet in more than a
    point: the turn starts before the segment ends and ends after the
    segment starts. *)
Lemma overlap_positive_intersects segment spk_segment :
  is_number (spk_start spk_segment) -> is_number (spk_end spk_segment) ->
  (0 <? overlap segment spk_segment)%float = true ->
  (spk_start spk_segment <? seg_end segment)%float = true
  /\ (seg_start segment <? spk_end spk_segment)%float = true.
Proof.
  intros Hstart Hend. unfold overlap. rewrite py_max0_positive.
  intros Hlt%sub_positive_lt. revert Hlt. unfold py_max, py_min.
  destruct (seg_start segment <? spk_start spk_segment)%float eqn:Hs,
           (spk_end spk_segment <? seg_end segment)%float eqn:He;
    intros Hlt.
  - split; eapply ltb_trans; eassumption.
  - split; [exact Hlt |].
    apply ltb_lt_le with (e := seg_end segment); [exact Hend | | exact He].
    eapply ltb_trans; eassumption.
  - split; [| exact Hlt].
    apply ltb_le_lt with (a := seg_start segment);
      [exact Hstart | apply (ltb_numbers _ _ Hlt) | exact Hs |].
    eapply ltb_trans; eassumption.
  - split.
    + apply ltb_le_lt with (a := seg_start segment);
        [exact Hstart | apply (ltb_numbers _ _ Hlt) | exact Hs | exact Hlt].
    + apply ltb_lt_le with (e := seg_end segment);
        [exact Hend | exact Hlt | exact He].
Qed.

(** A turn that starts at or after the end of the segment, or ends at or
    before its start, has overlap exactly 0. *)
Lemma apart_overlap_zero segment spk_segment :
  is_number (spk_start spk_segment) -> is_number (spk_end spk_segment) ->
  (spk_start spk_segment <? seg_end segment)%float = false
  \/ (seg_start segment <? spk_end spk_segment)%float = false ->
  overlap segment spk_segment = 0%float.
Proof.
  intros Hstart Hend Hapart.
  destruct (0 <? overlap segment spk_segment)%float eqn:Hpos.
  - apply overlap_positive_intersects in Hpos as [H1 H2]; try assumption.
    destruct Hapart; congruence.
  - revert Hpos. unfold overlap. rewrite py_max0_positive.
    apply py_max0_zero.
Qed.

(** The running maximum is 0 or a positive overlap: never below 0. *)
Lemma scanned_max_not_negative segment seen st :
  scanned segment seen st -> (snd st <? 0)%float = false.
Proof.
  intros [seen' _ | before winner after Hpos _ _]; cbn [snd].
  - reflexivity.
  - now apply ltb_asym.
Qed.

(** A turn whose overlap is 0 leaves the loop where it was. *)
Lemma zero_overlap_turn_ignored segment spk_segment before after :
  overlap segment spk_segment = 0%float ->
  find_speaker segment (before ++ spk_segment :: after)
  = find_speaker segment (before ++ after).
Proof.
  intros Hzero. unfold find_speaker. rewrite !fold_left_app. cbn [fold_left].
  f_equal. fold (find_speaker segment before).
  pose proof (scanned_max_not_negative _ _ _
                (find_speaker_scanned segment before)) as Hmax.
  destruct (find_speaker segment before) as [best max_overlap].
  unfold speaker_step. rewrite Hzero. cbn [snd] in Hmax. now rewrite Hmax.
Qed.

(** C10. A fused speaker other than "Unknown" comes from a turn whose
    overlap with the segment is strictly positive, hence from a turn that
    starts before the segment ends and ends after it starts.  When no turn
    has a positive overlap the speaker stays "Unknown"; a turn that only
    touches the segment at a boundary point, or lies apart from it, has
    overlap exactly 0 and leaves the loop where it was. *)
Theorem speaker_assigned_only_by_positive_overlap
    (uuid4 : nat -> string) (k : nat)
    (transcribed_segments : list TranscribedSegment)
    (speaker_segments : list DiarizationTurn) :
  let combined_segments :=
    fst (_combine_transcription_with_speakers uuid4 k transcribed_segments
                                              speaker_segments) in
  (forall i fused,
      combined_segments !! i = Some fused ->
      fs_speaker fused <> "Unknown" ->
      exists segment spk_segment,
        transcribed_segments !! i = Some segment
        /\ spk_segment ∈ speaker_segments
        /\ fs_speaker fused = spk_speaker spk_segment
        /\ (0 <? overlap segment spk_segment)%float = true
        /\ (is_number (spk_start spk_segment) ->
            is_number (spk_end spk_segment) ->
            (spk_start spk_segment <? seg_end segment)%float = true
            /\ (seg_start segment <? spk_end spk_segment)%float = true))
  /\ (forall i segment,
        transcribed_segments !! i = Some segment ->
        Forall (fun d => (0 <? overlap segment d)%float = false)
               speaker_segments ->
        fs_speaker <$> combined_segments !! i = Some "Unknown")
  /\ (forall segment spk_segment,
        is_number (spk_start spk_segment) ->
        is_number (spk_end spk_segment) ->
        spk_start spk_segment = seg_end segment
        \/ spk_end spk_segment = seg_start segment
        \/ (spk_start spk_segment <? seg_end segment)%float = false
        \/ (seg_start segment <? spk_end spk_segment)%float = false ->
        overlap segment spk_segment = 0%float
        /\ forall before after,
            find_speaker segment (before ++ spk_segment :: after)
            = find_speaker segment (before ++ after)).
Proof.
  cbv zeta. split; [| split].
  - intros i fused. rewrite combine_lookup.
    destruct (transcribed_segments !! i) as [segment|]; [| discriminate].
    cbn. intros [= <-]. unfold fuse_one, best_speaker. cbn [fs_speaker].
    intros Hknown.
    destruct (find_speaker_scanned segment speaker_segments)
      as [seen Hnone | before winner after Hpos Hbefore Hafter].
    + now contradict Hknown.
    + exists segment, winner.
      split; [reflexivity |]. split; [apply elem_of_app; right; left |].
      split; [reflexivity |]. split; [exact Hpos |].
      intros Hstart Hend. now apply overlap_positive_intersects.
  - intros i segment Hi Hnone. rewrite combine_lookup, Hi. cbn.
    unfold best_speaker. f_equal.
    destruct (find_speaker_scanned segment speaker_segments)
      as [seen _ | before winner after Hpos _ _]; [reflexivity |].
    apply Forall_app in Hnone as [_ Hnone].
    apply Forall_cons in Hnone as [Hw _]. congruence.
  - intros segment spk_segment Hstart Hend Hapart.
    assert (Hzero : overlap segment spk_segment = 0%float).
    { apply apart_overlap_zero; try assumption.
      destruct Hapart as [<- | [-> | [H | H]]]; auto using ltb_irrefl. }
    split; [exact Hzero |]. intros before after.
    now apply zero_overlap_turn_ignored.
Qed.

(** A segment with one overlapping turn and one that only touches it. *)
Lemma speaker_assigned_only_by_positive_overlap_witness :
  let segment :=
    {| seg_start := 10; seg_end := 20; seg_text := "No further questions.";
       seg_confidence := None |} in
  let later := {| spk_start := 20; spk_end := 30; spk_speaker := "Clerk" |} in
  let judge := {| spk_start := 0; spk_end := 15; spk_speaker := "Judge" |} in
  (exists spk_segment,
      spk_segment ∈ [later; judge]
      /\ (0 <? overlap segment spk_segment)%float = true
      /\ spk_speaker spk_segment = "Judge")
  /\ overlap segment later = 0%float.
Proof.
  cbv zeta.
  pose proof (speaker_assigned_only_by_positive_overlap
                (fun n => pretty n) 0
                [ {| seg_start := 10; seg_end := 20;
                     seg_text := "No further questions.";
                     seg_confidence := None |} ]
                [ {| spk_start := 20; spk_end := 30; spk_speaker := "Clerk" |};
                  {| spk_start := 0; spk_end := 15; spk_speaker := "Judge" |} ])
    as (Hfrom & _ & Htouch).
  split.
  - destruct (Hfrom 0%nat _ eq_refl)
      as (segment & winner & Hseg & Hin & Hspk & Hpos & _).
    + vm_compute. discriminate.
    + injection Hseg as <-. exists winner. repeat split; try assumption.
      now rewrite <- Hspk.
  - apply Htouch; [vm_compute; discriminate | vm_compute; discriminate |].
    now left.
Defined.

End FusionClaims.

(** ** Diarization: role mapping and fallback turns *)

Module DiarizationFacts.

Import Diarization.

(** A loop that appends one item per element builds the mapped list. *)
Lemma fold_left_append {A B} (f : A -> B) (l : list A) (acc : list B) :
  fold_left (fun segments x => segments ++ [f x]) l acc = acc ++ (f <$> l).
Proof.
  revert acc. induction l as [| x l IH]; intros acc; cbn.
  - now rewrite app_nil_r.
  - rewrite IH, <- app_assoc. reflexivity.
Qed.




Lemma mock_loop_fmap duration num_segments :
  mock_loop duration num_segments
  = mock_turn duration <$> seq 0 (Z.to_nat num_segments).
Proof. unfold mock_loop. now rewrite fold_left_append. Qed.

End DiarizationFacts.

Module DiarizationClaims.

Import Diarization DiarizationFacts.




(** C4. The fallback does not always answer with turns.  Its
    [import librosa] stands before the [try], so [_generate_mock_segments]
    raises exactly when that import raises, and then for every file: it
    returns neither the windows of 10 seconds nor the three fixed turns,
    also when the duration could not have been determined. *)
Theorem fallback_raises_exactly_when_import_fails
    (import_librosa : outcome unit)
    (librosa_duration : string -> outcome float) (audio_file : string) :
  (forall e,
      _generate_mock_segments import_librosa librosa_duration audio_file
      = Raises e
      <-> import_librosa = Raises e)
  /\ (forall e turns,
        import_librosa = Raises e ->
        _generate_mock_segments import_librosa librosa_duration audio_file
        <> Returns turns)
  /\ _generate_mock_segments
       (Raises (PyExn "No module named 'librosa'"))
       (fun _ => Raises (PyExn "No module named 'librosa'")) "hearing.wav"
     = Raises (PyExn "No module named 'librosa'").
Proof.
  unfold _generate_mock_segments, num_segments_of.
  split; [| split].
  - intros e. destruct import_librosa as [[] | e0]; cbn.
    + split; [| discriminate].
      destruct (librosa_duration audio_file) as [duration |]; cbn;
        [| discriminate].
      destruct (py_int (duration / segment_length)); cbn; discriminate.
    + split; congruence.
  - intros e turns ->. discriminate.
  - reflexivity.
Qed.

(** X22. When [import librosa] succeeds, the fallback cuts the duration
    into windows of 10 seconds, window [i] getting the role at index
    [i mod 4] of Judge, Advocate (Plaintiff), Advocate (Defense), Witness;
    95 seconds give 9 turns that start with Judge; and when loading the
    file or measuring it raises, or the duration is not a finite number,
    the three fixed turns over 0-90 seconds are returned. *)
Theorem fallback_turns_ten_second_windows
    (librosa_duration : string -> outcome float) (audio_file : string) :
  (forall duration num_segments,
      librosa_duration audio_file = Returns duration ->
      py_int (duration / 10) = Some num_segments ->
      exists turns,
        _generate_mock_segments (Returns tt) librosa_duration audio_file
        = Returns turns
        /\ length turns = Z.to_nat num_segments
        /\ forall i, (i < Z.to_nat num_segments)%nat ->
             exists role,
               ["Judge"; "Advocate (Plaintiff)"; "Advocate (Defense)"; "Witness"]
                 !! (i mod 4)%nat = Some role
               /\ turns !! i
                  = Some {| spk_start := py_float_of_int (Z.of_nat i) * 10;
                            spk_end :=
                              py_min (py_float_of_int (Z.of_nat i + 1) * 10)
                                     duration;
                            spk_speaker := role |})
  /\ (librosa_duration audio_file = Returns 95%float ->
      _generate_mock_segments (Returns tt) librosa_duration audio_file
      = Returns
          [ {| spk_start := 0; spk_end := 10; spk_speaker := "Judge" |};
            {| spk_start := 10; spk_end := 20;
               spk_speaker := "Advocate (Plaintiff)" |};
            {| spk_start := 20; spk_end := 30;
               spk_speaker := "Advocate (Defense)" |};
            {| spk_start := 30; spk_end := 40; spk_speaker := "Witness" |};
            {| spk_start := 40; spk_end := 50; spk_speaker := "Judge" |};
            {| spk_start := 50; spk_end := 60;
               spk_speaker := "Advocate (Plaintiff)" |};
            {| spk_start := 60; spk_end := 70;
               spk_speaker := "Advocate (Defense)" |};
            {| spk_start := 70; spk_end := 80; spk_speaker := "Witness" |};
            {| spk_start := 80; spk_end := 90; spk_speaker := "Judge" |} ])
  /\ ((exists e, librosa_duration audio_file = Raises e)
      \/ (exists duration,
             librosa_duration audio_file = Returns duration
             /\ py_int (duration / 10) = None) ->
      _generate_mock_segments (Returns tt) librosa_duration audio_file
      = Returns
          [ {| spk_start := 0; spk_end := 30; spk_speaker := "Judge" |};
            {| spk_start := 30; spk_end := 60;
               spk_speaker := "Advocate (Plaintiff)" |};
            {| spk_start := 60; spk_end := 90;
               spk_speaker := "Advocate (Defense)" |} ]).
Proof.
  unfold _generate_mock_segments, num_segments_of, segment_length.
  cbn [mbind outcome_bind].
  split; [| split].
  - intros duration num_segments -> Hint. cbn. rewrite Hint. cbn.
    eexists. split; [reflexivity |]. rewrite mock_loop_fmap.
    split; [now rewrite length_fmap, length_seq |].
    intros i Hi.
    change (length speaker_roles) with 4%nat in *.
    assert (Hrole : (i mod 4 < length speaker_roles)%nat)
      by (apply Nat.mod_upper_bound; discriminate).
    apply lookup_lt_is_Some_2 in Hrole as [role Hrole].
    exists role. split; [exact Hrole |].
    rewrite list_lookup_fmap, lookup_seq_lt by exact Hi.
    cbn [fmap option_fmap option_map Nat.add].
    unfold mock_turn, segment_length.
    change (length speaker_roles) with 4%nat.
    now rewrite Hrole.
  - intros ->. vm_compute. reflexivity.
  - intros [[e ->] | (duration & -> & Hint)]; cbn; [reflexivity |].
    now rewrite Hint.
Qed.

(** A recording of 95 seconds, and a file that cannot be loaded. *)
Lemma fallback_turns_ten_second_windows_witness :
  (exists turns,
      _generate_mock_segments (Returns tt) (fun _ => Returns 95%float)
                              "hearing.wav"
      = Returns turns
      /\ length turns = 9%nat
      /\ spk_speaker <$> turns !! 0%nat = Some "Judge"
      /\ spk_speaker <$> turns !! 5%nat = Some "Advocate (Plaintiff)")
  /\ (exists turns,
         _generate_mock_segments (Returns tt)
                                 (fun _ => Raises (PyExn "no such file"))
                                 "missing.wav"
         = Returns turns
         /\ length turns = 3%nat).
Proof.
  split.
  - destruct (fallback_turns_ten_second_windows
                (fun _ => Returns 95%float) "hearing.wav")
      as (_ & Hninety_five & _).
    rewrite (Hninety_five eq_refl). eexists. split; [reflexivity |].
    repeat split.
  - destruct (fallback_turns_ten_second_windows
                (fun _ => Raises (PyExn "no such file")) "missing.wav")
      as (_ & _ & Hunknown).
    rewrite Hunknown; [| left; now eexists].
    eexists. split; reflexivity.
Defined.

End DiarizationClaims.

(** ** Noise suppression and the orchestrator: what is raised *)

Module PipelineClaims.

Import NoiseSuppression Orchestrator.

(** C7. [NoiseSuppression.process] never raises: without the audio
    libraries, and whenever a step of the filtering raises, it returns the
    path it was given; otherwise it returns the path of the file it
    wrote. *)
Theorem noise_suppression_process_never_raises
    (Audio : Type) (AUDIO_LIBS_AVAILABLE : bool) (libs : AudioLibs Audio)
    (audio_file : string) :
  (forall e, process Audio AUDIO_LIBS_AVAILABLE libs audio_file <> Raises e)
  /\ (AUDIO_LIBS_AVAILABLE = false ->
      process Audio AUDIO_LIBS_AVAILABLE libs audio_file = Returns audio_file)
  /\ ((exists e, librosa_load Audio libs audio_file = Raises e)
      \/ (exists audio sample_rate e,
             librosa_load Audio libs audio_file = Returns (audio, sample_rate)
             /\ (_spectral_subtraction Audio libs audio sample_rate = Raises e
                 \/ exists audio_filtered,
                     _spectral_subtraction Audio libs audio sample_rate
                     = Returns audio_filtered
                     /\ (named_temporary_file Audio libs = Raises e
                         \/ exists cleaned_audio_path,
                             named_temporary_file Audio libs
                             = Returns cleaned_audio_path
                             /\ sf_write Audio libs cleaned_audio_path
                                         audio_filtered sample_rate
                                = Raises e))) ->
      process Audio AUDIO_LIBS_AVAILABLE libs audio_file = Returns audio_file)
  /\ (forall audio sample_rate audio_filtered cleaned_audio_path,
        AUDIO_LIBS_AVAILABLE = true ->
        librosa_load Audio libs audio_file = Returns (audio, sample_rate) ->
        _spectral_subtraction Audio libs audio sample_rate
        = Returns audio_filtered ->
        named_temporary_file Audio libs = Returns cleaned_audio_path ->
        sf_write Audio libs cleaned_audio_path audio_filtered sample_rate
        = Returns tt ->
        process Audio AUDIO_LIBS_AVAILABLE libs audio_file
        = Returns cleaned_audio_path).
Proof.
  unfold process. split; [| split; [| split]].
  - intros e. destruct AUDIO_LIBS_AVAILABLE; cbn; [| discriminate].
    destruct (librosa_load Audio libs audio_file) as [[audio rate] |];
      cbn; [| discriminate].
    destruct (_spectral_subtraction Audio libs audio rate) as [filtered |];
      cbn; [| discriminate].
    destruct (named_temporary_file Audio libs) as [path |];
      cbn; [| discriminate].
    destruct (sf_write Audio libs path filtered rate); cbn; discriminate.
  - intros ->. reflexivity.
  - intros Hfault. destruct AUDIO_LIBS_AVAILABLE; cbn; [| reflexivity].
    destruct Hfault as [[e ->] | (audio & rate & e & -> & Hfault)];
      cbn; [reflexivity |].
    destruct Hfault as [-> | (filtered & -> & Hfault)]; cbn; [reflexivity |].
    destruct Hfault as [-> | (path & -> & Hwrite)]; [reflexivity |].
    cbn. now rewrite Hwrite.
  - intros audio rate filtered path -> Hload Hfilter Htemp Hwrite.
    cbn. rewrite Hload. cbn. rewrite Hfilter. cbn. rewrite Htemp. cbn.
    now rewrite Hwrite.
Qed.

(** A load that fails, with the libraries present. *)
Lemma noise_suppression_process_never_raises_witness :
  process (list float) true
          {| librosa_load := fun _ => Raises (PyExn "unknown format");
             _spectral_subtraction := fun audio _ => Returns audio;
             named_temporary_file := Returns "/tmp/clean.wav";
             sf_write := fun _ _ _ => Returns tt |}
          "uploads/hearing.wav"
  = Returns "uploads/hearing.wav".
Proof.
  apply (noise_suppression_process_never_raises (list float) true).
  left. now eexists.
Defined.

Section ProcessAudio.

Variable uuid4 : nat -> string.
Variable services : Services.
Variable clock : Clock.

(** The file the later stages read, the turns the fusion gets, and the
    two reads that can make the call raise. *)
Lemma process_audio_stages k audio_file case_id :
  let clean_audio_file :=
    match noise_suppression_process services audio_file with
    | Returns path => path
    | Raises _ => audio_file
    end in
  let speaker_segments :=
    match diarization_service_diarize services clean_audio_file with
    | Returns turns => turns
    | Raises _ => []
    end in
  process_audio uuid4 services clock k audio_file case_id
  = match model_transcribe services clean_audio_file with
    | Returns transcribed_segments =>
        match model_name services with
        | Returns name =>
            Returns
              (assemble services clock name
                 (uuid4 (k + length transcribed_segments)) audio_file case_id
                 speaker_segments
                 (fst (Fusion._combine_transcription_with_speakers
                         uuid4 k transcribed_segments speaker_segments)))
        | Raises e => Raises e
        end
    | Raises e =>
        Raises (PyExn ("Speech recognition failed: " +:+ exn_message e))
    end.
Proof.
  cbv zeta. unfold process_audio.
  destruct (noise_suppression_process services audio_file) as [path | e1];
    cbn [try_except mbind outcome_bind mret outcome_ret].
  all: match goal with
       | |- context [diarization_service_diarize services ?f] =>
           destruct (diarization_service_diarize services f) as [turns | e2];
           cbn [try_except mbind outcome_bind mret outcome_ret];
           destruct (model_transcribe services f) as [segs | e3];
           cbn [try_except mbind outcome_bind mret outcome_ret];
           try reflexivity
       end.
  all: rewrite FusionFacts.combine_imap; cbn [fst].
  all: destruct (model_name services) as [name | e4];
    cbn [try_except mbind outcome_bind mret outcome_ret];
    try reflexivity.
  all: match goal with
       | |- context [storage_service_store_transcript services ?i ?t] =>
           destruct (storage_service_store_transcript services i t)
       end; reflexivity.
Qed.

(** C6. [process_audio] raises without any failure of the speech
    recognition: the metadata read [self.model.name] outside every [try],
    so when that read raises, as it does on a model object without an
    attribute [name], the call raises the same exception after a
    recognition that returned its segments, whatever the other stages
    did. *)
Theorem process_audio_raises_on_model_name
    k audio_file case_id e transcribed_segments :
  let clean_audio_file :=
    match noise_suppression_process services audio_file with
    | Returns path => path
    | Raises _ => audio_file
    end in
  model_transcribe services clean_audio_file = Returns transcribed_segments ->
  model_name services = Raises e ->
  process_audio uuid4 services clock k audio_file case_id = Raises e.
Proof.
  cbv zeta. intros Hsegments Hname.
  rewrite process_audio_stages. cbv zeta.
  now rewrite Hsegments, Hname.
Qed.

(** X23. [process_audio] raises exactly when the speech recognition
    raises or the read of [self.model.name] does.  A failure of the noise
    suppression leaves the original file in use, a failure of the
    diarization leaves no turns, and whatever the storage call does,
    raising included, the assembled transcript is returned. *)
Theorem process_audio_raises_only_on_two_reads
    k audio_file case_id :
  let clean_audio_file :=
    match noise_suppression_process services audio_file with
    | Returns path => path
    | Raises _ => audio_file
    end in
  let speaker_segments :=
    match diarization_service_diarize services clean_audio_file with
    | Returns turns => turns
    | Raises _ => []
    end in
  ((exists e, process_audio uuid4 services clock k audio_file case_id
              = Raises e)
   <-> (exists e, model_transcribe services clean_audio_file = Raises e)
       \/ (exists e, model_name services = Raises e))
  /\ (forall e,
        model_transcribe services clean_audio_file = Raises e ->
        process_audio uuid4 services clock k audio_file case_id
        = Raises (PyExn ("Speech recognition failed: " +:+ exn_message e)))
  /\ (forall transcribed_segments name,
        model_transcribe services clean_audio_file
        = Returns transcribed_segments ->
        model_name services = Returns name ->
        let transcript_id := uuid4 (k + length transcribed_segments) in
        let transcript :=
          assemble services clock name transcript_id audio_file case_id
            speaker_segments
            (fst (Fusion._combine_transcription_with_speakers
                    uuid4 k transcribed_segments speaker_segments)) in
        process_audio uuid4 services clock k audio_file case_id
        = Returns transcript
        /\ forall e,
            storage_service_store_transcript services transcript_id transcript
            = Raises e ->
            process_audio uuid4 services clock k audio_file case_id
            = Returns transcript).
Proof.
  cbv zeta. rewrite process_audio_stages. cbv zeta.
  destruct (model_transcribe services _) as [segs | e3].
  - destruct (model_name services) as [name | e4].
    + split; [| split].
      * split; [intros [e He]; discriminate He |].
        intros [[e He] | [e He]]; discriminate He.
      * intros e He. discriminate He.
      * intros segs' name' [= <-] [= <-].
        split; [reflexivity | intros; reflexivity].
    + split; [| split].
      * split; intros _; eauto.
      * intros e He. discriminate He.
      * intros segs' name' _ He. discriminate He.
  - split; [| split].
    + split; intros _; eauto.
    + intros e [= <-]. reflexivity.
    + intros segs name He. discriminate He.
Qed.

End ProcessAudio.

(** A run in which every stage succeeds and the model object has no
    attribute [name]. *)
Lemma process_audio_raises_on_model_name_witness :
  process_audio
    (fun n => "id-" +:+ pretty n)
    {| noise_suppression_process := fun _ => Returns "/tmp/clean.wav";
       diarization_service_diarize := fun _ =>
         Returns [ {| spk_start := 0; spk_end := 5; spk_speaker := "Judge" |} ];
       model_transcribe := fun _ =>
         Returns [ {| seg_start := 0; seg_end := 4; seg_text := "All rise.";
                      seg_confidence := None |} ];
       storage_service_store_transcript := fun _ _ => Returns true;
       model_name :=
         Raises (PyExn "'Whisper' object has no attribute 'name'");
       device := "cpu" |}
    {| start_time := 100; metadata_time := 103;
       now_isoformat := "2024-01-01T10:00:00"; now_date := "2024-01-01" |}
    0 "uploads/hearing.wav" None
  = Raises (PyExn "'Whisper' object has no attribute 'name'").
Proof.
  apply (process_audio_raises_on_model_name
           (fun n => "id-" +:+ pretty n)
           {| noise_suppression_process := fun _ => Returns "/tmp/clean.wav";
              diarization_service_diarize := fun _ =>
                Returns [ {| spk_start := 0; spk_end := 5;
                             spk_speaker := "Judge" |} ];
              model_transcribe := fun _ =>
                Returns [ {| seg_start := 0; seg_end := 4;
                             seg_text := "All rise.";
                             seg_confidence := None |} ];
              storage_service_store_transcript := fun _ _ => Returns true;
              model_name :=
                Raises (PyExn "'Whisper' object has no attribute 'name'");
              device := "cpu" |}
           {| start_time := 100; metadata_time := 103;
              now_isoformat := "2024-01-01T10:00:00";
              now_date := "2024-01-01" |}
           0 "uploads/hearing.wav" None
           (PyExn "'Whisper' object has no attribute 'name'")
           [ {| seg_start := 0; seg_end := 4; seg_text := "All rise.";
                seg_confidence := None |} ]);
    reflexivity.
Defined.

(** Stand-ins for a run in which every stage but the recognition fails,
    on a model object that has a name. *)
Lemma process_audio_raises_only_on_two_reads_witness :
  let services :=
    {| noise_suppression_process := fun _ => Raises (PyExn "filter");
       diarization_service_diarize := fun _ => Raises (PyExn "diarize");
       model_transcribe := fun _ =>
         Returns [ {| seg_start := 0; seg_end := 4; seg_text := "All rise.";
                      seg_confidence := None |} ];
       storage_service_store_transcript := fun _ _ => Raises (PyExn "disk");
       model_name := Returns "base";
       device := "cpu" |} in
  let clock :=
    {| start_time := 100; metadata_time := 103;
       now_isoformat := "2024-01-01T10:00:00"; now_date := "2024-01-01" |} in
  exists transcript,
    process_audio (fun n => "id-" +:+ pretty n) services clock 0
                  "uploads/hearing.wav" None
    = Returns transcript
    /\ fs_speaker <$> tr_segments transcript = ["Unknown"]
    /\ md_audio_file (tr_metadata transcript) = "hearing.wav"
    /\ md_model (tr_metadata transcript) = "whisper-base".
Proof.
  cbv zeta. eexists. split.
  - apply (process_audio_raises_only_on_two_reads
             (fun n => "id-" +:+ pretty n)
             {| noise_suppression_process := fun _ => Raises (PyExn "filter");
                diarization_service_diarize := fun _ => Raises (PyExn "diarize");
                model_transcribe := fun _ =>
                  Returns [ {| seg_start := 0; seg_end := 4;
                               seg_text := "All rise.";
                               seg_confidence := None |} ];
                storage_service_store_transcript :=
                  fun _ _ => Raises (PyExn "disk");
                model_name := Returns "base";
                device := "cpu" |}
             {| start_time := 100; metadata_time := 103;
                now_isoformat := "2024-01-01T10:00:00";
                now_date := "2024-01-01" |}
             0 "uploads/hearing.wav" None);
      reflexivity.
  - repeat split.
Defined.

End PipelineClaims.

(** ** Storage: integrity on read, edits of one segment *)

Module StorageFacts.

Import Storage.

Lemma dict_get_setitem_eq key value entries :
  dict_get key (dict_setitem key value entries) = Some value.
Proof.
  induction entries as [| [k v] rest IH]; cbn.
  - now rewrite String.eqb_refl.
  - destruct (String.eqb k key) eqn:Hk; cbn; now rewrite Hk.
Qed.

Lemma dict_get_setitem_ne key key' value entries :
  key' <> key ->
  dict_get key' (dict_setitem key value entries) = dict_get key' entries.
Proof.
  intros Hne. induction entries as [| [k v] rest IH]; cbn.
  - destruct (String.eqb_spec key key'); [congruence | reflexivity].
  - destruct (String.eqb_spec k key) as [-> | Hk]; cbn.
    + destruct (String.eqb_spec key key'); [congruence | reflexivity].
    + now rewrite IH.
Qed.

(** An existing key keeps its place: the keys are the same, in order. *)
Lemma dict_setitem_keys key value entries :
  is_Some (dict_get key entries) ->
  (dict_setitem key value entries).*1 = entries.*1.
Proof.
  induction entries as [| [k v] rest IH]; cbn.
  - intros [? [=]].
  - destruct (String.eqb k key); cbn; [reflexivity |].
    intros Hsome. now rewrite IH.
Qed.

(** When the loop edits, it edits the first dictionary whose ["id"] is
    the one asked for, and every segment before it is a dictionary with
    another ["id"]. *)
Lemma update_loop_Some segment_id new_text segments segments' :
  update_loop segment_id new_text segments = Returns (Some segments') ->
  exists i fields,
    segments !! i = Some (JDict fields)
    /\ py_eq_str (default JNull (dict_get "id" fields)) segment_id = true
    /\ segments'
       = <[i := JDict (dict_setitem "text" (JStr new_text) fields)]> segments
    /\ forall j, (j < i)%nat ->
         exists fields',
           segments !! j = Some (JDict fields')
           /\ py_eq_str (default JNull (dict_get "id" fields')) segment_id
              = false.
Proof.
  revert segments'.
  induction segments as [| segment rest IH]; intros segments'; cbn.
  - discriminate.
  - destruct segment as [| b | n | x | s | items | fields]; cbn;
      try discriminate.
    destruct (py_eq_str (default JNull (dict_get "id" fields)) segment_id)
      eqn:Hid.
    + intros [= <-]. exists 0%nat, fields. repeat split; try assumption.
      intros j Hj. lia.
    + destruct (update_loop segment_id new_text rest) as [[later |] | e];
        cbn; try discriminate.
      intros [= <-].
      destruct (IH later eq_refl) as (i & fields' & Hi & Hid' & -> & Hbefore).
      exists (S i), fields'. repeat split; try assumption.
      intros [| j] Hj.
      * exists fields. now split.
      * apply Hbefore. lia.
Qed.

(** The loop finds nothing to edit among values that are not dictionaries. *)
Lemma update_loop_not_dicts segment_id new_text segments segments' :
  Forall (fun v => forall fields, v <> JDict fields) segments ->
  update_loop segment_id new_text segments <> Returns (Some segments').
Proof.
  intros Hnot Hsome.
  apply update_loop_Some in Hsome as (i & fields & Hi & _).
  eapply Forall_lookup_1 in Hnot; [| exact Hi]. now apply (Hnot fields).
Qed.

Lemma chars_not_dicts s :
  Forall (fun v => forall fields, v <> JDict fields) (chars s).
Proof.
  unfold chars. apply Forall_fmap, Forall_true. intros p fields.
  discriminate.
Qed.

Lemma keys_not_dicts (entries : list (string * json)) :
  Forall (fun v => forall fields, v <> JDict fields)
         ((fun kv => JStr (fst kv)) <$> entries).
Proof. induction entries; cbn; constructor; [discriminate | assumption]. Qed.

(** An edit happened only in a list of segments. *)
Lemma py_iter_update_loop segment_id new_text segments items items' :
  py_iter segments = Returns items ->
  update_loop segment_id new_text items = Returns (Some items') ->
  segments = JList items.
Proof.
  destruct segments as [| b | n | x | s | l | entries]; cbn;
    try discriminate; intros [= <-] Hloop.
  - now apply update_loop_not_dicts in Hloop; [| apply chars_not_dicts].
  - reflexivity.
  - now apply update_loop_not_dicts in Hloop; [| apply keys_not_dicts].
Qed.

Section WithCodecs.

Variable sha256_hexdigest : string -> string.
Variable json_loads : string -> outcome json.
Variable json_dumps : json -> string.

Lemma get_transcript_returns db transcript_id :
  exists transcript,
    get_transcript sha256_hexdigest json_loads db transcript_id
    = Returns transcript.
Proof.
  unfold get_transcript.
  destruct (transcripts db !! transcript_id) as [row |]; cbn; [| eauto].
  destruct (negb _); cbn; [eauto |].
  destruct (json_loads (row_data row)); cbn; eauto.
Qed.

Lemma get_transcript_missing db transcript_id :
  transcripts db !! transcript_id = None ->
  get_transcript sha256_hexdigest json_loads db transcript_id = Returns JNull.
Proof. unfold get_transcript. now intros ->. Qed.

End WithCodecs.

End StorageFacts.

Module StorageClaims.

Import Storage StorageFacts.

Section WithCodecs.

Variable sha256_hexdigest : string -> string.
Variable json_loads : string -> outcome json.
Variable json_dumps : json -> string.

(** C8. A stored transcript whose recomputed hash differs from the stored
    one is read as [None], exactly as a transcript that is not there: the
    result is that of the same database without the row, and of any
    lookup of an unknown id. *)
Theorem corrupted_transcript_reads_as_missing
    (db : Database) (transcript_id : string) (row : TranscriptRow) :
  transcripts db !! transcript_id = Some row ->
  sha256_hexdigest (row_data row) <> row_hash row ->
  get_transcript sha256_hexdigest json_loads db transcript_id = Returns JNull
  /\ get_transcript sha256_hexdigest json_loads db transcript_id
     = get_transcript sha256_hexdigest json_loads
         {| transcripts := delete transcript_id (transcripts db);
            audit_log := audit_log db |}
         transcript_id
  /\ forall db' transcript_id',
       transcripts db' !! transcript_id' = None ->
       get_transcript sha256_hexdigest json_loads db transcript_id
       = get_transcript sha256_hexdigest json_loads db' transcript_id'.
Proof.
  intros Hrow Hhash.
  assert (Hnull : get_transcript sha256_hexdigest json_loads db transcript_id
                  = Returns JNull).
  { unfold get_transcript. rewrite Hrow.
    destruct (String.eqb_spec (sha256_hexdigest (row_data row)) (row_hash row));
      [contradiction | reflexivity]. }
  split; [exact Hnull |]. rewrite Hnull. split.
  - symmetry. apply get_transcript_missing. cbn. apply lookup_delete_eq.
  - intros db' transcript_id' Hmissing. symmetry.
    now apply get_transcript_missing.
Qed.

(** C9. [update_transcript_segment] always returns; when it returns
    [False] the database is as before, and it does so for an unknown
    transcript id and when no segment has the id asked for.  When it
    returns [True], the stored transcript is the old one with the text of
    the first segment carrying that id replaced: the other keys of that
    segment, every other segment and every other key of the transcript are
    unchanged. *)
Theorem update_transcript_segment_edits_only_the_text
    (db : Database) (timestamp new_log_id : string)
    (transcript_id segment_id new_text user : string) :
  exists updated db',
    update_transcript_segment sha256_hexdigest json_loads json_dumps db
      timestamp new_log_id transcript_id segment_id new_text user
    = Returns (updated, db')
    /\ (updated = false -> db' = db)
    /\ (transcripts db !! transcript_id = None -> updated = false)
    /\ ((forall transcript segments items,
            get_transcript sha256_hexdigest json_loads db transcript_id
            = Returns transcript ->
            py_get transcript "segments" (JList []) = Returns segments ->
            py_iter segments = Returns items ->
            Forall (fun item =>
                      forall fields,
                        item = JDict fields ->
                        py_eq_str (default JNull (dict_get "id" fields))
                                  segment_id = false)
                   items) ->
        updated = false)
    /\ (updated = true ->
        exists row entries items i fields,
          transcripts db !! transcript_id = Some row
          /\ sha256_hexdigest (row_data row) = row_hash row
          /\ json_loads (row_data row) = Returns (JDict entries)
          /\ dict_get "segments" entries = Some (JList items)
          /\ items !! i = Some (JDict fields)
          /\ py_eq_str (default JNull (dict_get "id" fields)) segment_id = true
          /\ let fields' := dict_setitem "text" (JStr new_text) fields in
             let items' := <[i := JDict fields']> items in
             let entries' := dict_setitem "segments" (JList items') entries in
             transcripts db'
             = <[transcript_id :=
                   {| row_data := json_dumps (JDict entries');
                      row_created_at := row_created_at row;
                      row_updated_at := timestamp;
                      row_case_id := row_case_id row;
                      row_hash := sha256_hexdigest (json_dumps (JDict entries'))
                   |}]> (transcripts db)
             /\ dict_get "text" fields' = Some (JStr new_text)
             /\ (forall key, key <> "text" ->
                   dict_get key fields' = dict_get key fields)
             /\ fields'.*1 = match dict_get "text" fields with
                             | Some _ => fields.*1
                             | None => fields.*1 ++ ["text"]
                             end
             /\ length items' = length items
             /\ (forall j, j <> i -> items' !! j = items !! j)
             /\ dict_get "segments" entries' = Some (JList items')
             /\ (forall key, key <> "segments" ->
                   dict_get key entries' = dict_get key entries)
             /\ entries'.*1 = entries.*1
             /\ (json_loads (json_dumps (JDict entries'))
                 = Returns (JDict entries') ->
                 get_transcript sha256_hexdigest json_loads db' transcript_id
                 = Returns (JDict entries'))).
Proof.
  unfold update_transcript_segment.
  destruct (get_transcript_returns sha256_hexdigest json_loads db transcript_id)
    as [transcript Hget].
  rewrite Hget. cbn [mbind outcome_bind].
  assert (Hfalse : forall P Q : Prop,
             (transcripts db !! transcript_id = None -> false = false)
             /\ (P -> false = false) /\ (false = true -> Q))
    by (intros P Q; repeat split; intros; try reflexivity; discriminate).
  destruct (py_truthy transcript) eqn:Htruthy; cbn [negb];
    [| exists false, db; split; [reflexivity | split; [reflexivity | apply Hfalse]]].
  destruct (py_get transcript "segments" (JList [])) as [segments | e1]
    eqn:Hsegments; cbn [mbind outcome_bind try_except mret outcome_ret];
    [| exists false, db; split; [reflexivity | split; [reflexivity | apply Hfalse]]].
  destruct (py_iter segments) as [items | e2] eqn:Hiter;
    cbn [mbind outcome_bind try_except mret outcome_ret];
    [| exists false, db; split; [reflexivity | split; [reflexivity | apply Hfalse]]].
  destruct (update_loop segment_id new_text items) as [[items' |] | e3]
    eqn:Hloop; cbn [mbind outcome_bind try_except mret outcome_ret];
    [| exists false, db; split; [reflexivity | split; [reflexivity | apply Hfalse]] ..].
  (* the segment was found and edited *)
  pose proof (py_iter_update_loop _ _ _ _ _ Hiter Hloop) as ->.
  apply update_loop_Some in Hloop as (i & fields & Hi & Hid & -> & _).
  destruct transcript as [| b | n | x | s | l | entries]; try discriminate.
  cbn in Hsegments.
  assert (Hkey : dict_get "segments" entries = Some (JList items)).
  { destruct (dict_get "segments" entries) as [v |] eqn:Hkey; cbn in Hsegments.
    - congruence.
    - injection Hsegments as <-. discriminate Hi. }
  unfold get_transcript in Hget.
  destruct (transcripts db !! transcript_id) as [row |] eqn:Hrow;
    [| discriminate Hget].
  cbn [try_except] in Hget.
  destruct (String.eqb_spec (sha256_hexdigest (row_data row)) (row_hash row))
    as [Hhash | Hhash]; cbn [negb] in Hget; [| discriminate Hget].
  assert (Hloads : json_loads (row_data row) = Returns (JDict entries)).
  { destruct (json_loads (row_data row)) as [v | e];
      [injection Hget as ->; reflexivity | discriminate Hget]. }
  eexists true, _. split; [reflexivity |].
  split; [discriminate |]. split; [discriminate |]. split.
  { intros Hunknown. exfalso.
    pose proof (Hunknown (JDict entries) (JList items) items) as Hall.
    specialize (Hall eq_refl). cbn in Hall. rewrite Hkey in Hall.
    specialize (Hall eq_refl eq_refl).
    eapply Forall_lookup_1 in Hall; [| exact Hi].
    rewrite (Hall fields eq_refl) in Hid. discriminate Hid. }
  intros _. exists row, entries, items, i, fields.
  repeat (split; [first [assumption | reflexivity] |]).
  cbv zeta. cbn [with_segments transcripts].
  split.
  { apply map_eq. intros key. rewrite lookup_alter, lookup_insert.
    case_decide; [subst key; now rewrite Hrow | reflexivity]. }
  split; [apply dict_get_setitem_eq |].
  split; [intros key Hkey'; now apply dict_get_setitem_ne |].
  split.
  { clear. induction fields as [| [k v] rest IH]; cbn; [reflexivity |].
    destruct (String.eqb k "text"); cbn; [reflexivity |].
    rewrite IH. now destruct (dict_get "text" rest). }
  split; [apply length_insert |].
  split; [intros j Hj; now apply list_lookup_insert_ne |].
  split; [apply dict_get_setitem_eq |].
  split; [intros key Hkey'; now apply dict_get_setitem_ne |].
  split; [apply dict_setitem_keys; now rewrite Hkey |].
  intros Hround. unfold get_transcript. cbn [transcripts].
  rewrite lookup_alter. case_decide; [| congruence]. rewrite Hrow.
  cbn [fmap option_fmap option_map update_row row_data row_hash].
  rewrite String.eqb_refl. cbn [negb]. now rewrite Hround.
Qed.

End WithCodecs.

(** A row whose data was altered after it was stored, under a stand-in
    digest. *)
Lemma corrupted_transcript_reads_as_missing_witness :
  let digest := fun s => "sha256:" +:+ s in
  let row :=
    {| row_data := "{id: t1, segments: []}";
       row_created_at := "2024-01-01T10:00:00";
       row_updated_at := "2024-01-01T10:00:00";
       row_case_id := None;
       row_hash := digest "{id: t1}" |} in
  get_transcript digest (fun _ => Returns (JDict [("id", JStr "t1")]))
                 {| transcripts := {[ "t1" := row ]}; audit_log := [] |} "t1"
  = Returns JNull.
Proof.
  cbv zeta.
  apply (corrupted_transcript_reads_as_missing
           (fun s => "sha256:" +:+ s)
           (fun _ => Returns (JDict [("id", JStr "t1")]))
           {| transcripts :=
                {[ "t1" :=
                     {| row_data := "{id: t1, segments: []}";
                        row_created_at := "2024-01-01T10:00:00";
                        row_updated_at := "2024-01-01T10:00:00";
                        row_case_id := None;
                        row_hash := "sha256:" +:+ "{id: t1}" |} ]};
              audit_log := [] |}
           "t1" _ (lookup_singleton_eq _ _)).
  cbn. discriminate.
Defined.

(** An edit of the second of two segments, under stand-in codecs. *)
Lemma update_transcript_segment_edits_only_the_text_witness :
  let digest := fun s => "sha256:" +:+ s in
  let segment := fun id speaker text =>
    JDict [("id", JStr id); ("speaker", JStr speaker); ("text", JStr text);
           ("start_time", JFloat 0); ("end_time", JFloat 2);
           ("confidence", JFloat 0)] in
  let stored :=
    JDict [("id", JStr "t1");
           ("segments", JList [segment "s1" "Judge" "Order.";
                               segment "s2" "Witness" "I object."]);
           ("status", JStr "success")] in
  let db :=
    {| transcripts :=
         {[ "t1" := {| row_data := "stored";
                       row_created_at := "2024-01-01T10:00:00";
                       row_updated_at := "2024-01-01T10:00:00";
                       row_case_id := None;
                       row_hash := "sha256:stored" |} ]};
       audit_log := [] |} in
  (exists db',
      update_transcript_segment digest (fun _ => Returns stored)
        (fun _ => "edited") db "2024-01-02T09:00:00" "log-1"
        "t1" "s2" "Sustained." "clerk"
      = Returns (true, db'))
  /\ update_transcript_segment digest (fun _ => Returns stored)
       (fun _ => "edited") db "2024-01-02T09:00:00" "log-1"
       "t1" "s9" "Sustained." "clerk"
     = Returns (false, db).
Proof.
  cbv zeta.
  split.
  - match goal with
    | |- exists db', update_transcript_segment ?h ?l ?d ?db ?t ?g ?i ?s ?x ?u = _ =>
        destruct (update_transcript_segment_edits_only_the_text
                    h l d db t g i s x u)
          as (updated & db' & Hrun & _)
    end.
    exists db'. rewrite Hrun.
    assert (Hupdated : updated = true); [| now rewrite Hupdated].
    vm_compute in Hrun. now injection Hrun as <- _.
  - match goal with
    | |- update_transcript_segment ?h ?l ?d ?db ?t ?g ?i ?s ?x ?u = _ =>
        destruct (update_transcript_segment_edits_only_the_text
                    h l d db t g i s x u)
          as (updated & db' & Hrun & Hsame & _)
    end.
    rewrite Hrun.
    assert (Hupdated : updated = false).
    { vm_compute in Hrun. now injection Hrun as <- _. }
    now rewrite (Hsame Hupdated), Hupdated.
Defined.

End StorageClaims.

(** ** Storage: writes, deletions and what they keep *)

Module StorageWritesFacts.

Import Storage StorageWrites StorageFacts.

Section WithCodecs.

Variable sha256_hexdigest : string -> string.
Variable json_loads : string -> outcome json.
Variable json_dumps : json -> string.
Variable sqlite_number_text : json -> string.

(** The two ways [store_transcript] ends. *)
Lemma store_transcript_cases db timestamp new_log_id transcript_id
    transcript_data :
  store_transcript sha256_hexdigest json_dumps sqlite_number_text db
    timestamp new_log_id transcript_id transcript_data
  = Returns (false, db)
  \/ exists (case_id : option string) (segments_count : nat),
      transcripts db !! transcript_id = None
      /\ store_transcript sha256_hexdigest json_dumps sqlite_number_text db
           timestamp new_log_id transcript_id transcript_data
         = Returns
             (true,
              {| transcripts :=
                   <[transcript_id :=
                       {| row_data := json_dumps transcript_data;
                          row_created_at := timestamp;
                          row_updated_at := timestamp;
                          row_case_id := case_id;
                          row_hash :=
                            sha256_hexdigest (json_dumps transcript_data) |}]>
                     (transcripts db);
                 audit_log :=
                   audit_log db ++
                   [ {| log_id := new_log_id;
                        log_transcript_id := transcript_id;
                        log_action := "create";
                        log_user := "system";
                        log_timestamp := timestamp;
                        log_details :=
                          "Created transcript with "
                          +:+ pretty segments_count +:+ " segments" |} ] |}).
Proof.
  unfold store_transcript. cbv zeta.
  destruct (py_get transcript_data "case_details" (JDict []))
    as [case_details |]; cbn; [| now left].
  destruct (py_get case_details "case_id" JNull) as [case_id |];
    cbn; [| now left].
  destruct (bind_text sqlite_number_text case_id) as [bound |];
    cbn; [| now left].
  destruct (transcripts db !! transcript_id) eqn:Hrow; cbn; [now left |].
  destruct (py_get transcript_data "segments" (JList [])) as [segments |];
    cbn; [| now left].
  destruct (py_len segments) as [n |]; cbn; [| now left].
  right. exists bound, n. now split.
Qed.

(** The two ways [delete_transcript] ends. *)
Lemma delete_transcript_cases db timestamp new_log_id transcript_id user :
  (transcripts db !! transcript_id = None
   /\ delete_transcript db timestamp new_log_id transcript_id user
      = Returns (false, db))
  \/ (is_Some (transcripts db !! transcript_id)
      /\ delete_transcript db timestamp new_log_id transcript_id user
         = Returns
             (true,
              {| transcripts := delete transcript_id (transcripts db);
                 audit_log :=
                   audit_log db ++
                   [ {| log_id := new_log_id;
                        log_transcript_id := transcript_id;
                        log_action := "delete";
                        log_user := user;
                        log_timestamp := timestamp;
                        log_details := "Transcript deleted" |} ] |})).
Proof.
  unfold delete_transcript.
  destruct (transcripts db !! transcript_id) eqn:Hrow; cbn.
  - right. split; [eauto | reflexivity].
  - left. now split.
Qed.

(** The two ways [update_transcript_segment] ends. *)
Lemma update_transcript_segment_cases db timestamp new_log_id transcript_id
    segment_id new_text user :
  update_transcript_segment sha256_hexdigest json_loads json_dumps db
    timestamp new_log_id transcript_id segment_id new_text user
  = Returns (false, db)
  \/ exists row json_data,
      transcripts db !! transcript_id = Some row
      /\ update_transcript_segment sha256_hexdigest json_loads json_dumps db
           timestamp new_log_id transcript_id segment_id new_text user
         = Returns
             (true,
              {| transcripts :=
                   <[transcript_id :=
                       {| row_data := json_data;
                          row_created_at := row_created_at row;
                          row_updated_at := timestamp;
                          row_case_id := row_case_id row;
                          row_hash := sha256_hexdigest json_data |}]>
                     (transcripts db);
                 audit_log :=
                   audit_log db ++
                   [ {| log_id := new_log_id;
                        log_transcript_id := transcript_id;
                        log_action := "update_segment";
                        log_user := user;
                        log_timestamp := timestamp;
                        log_details := "Updated segment " +:+ segment_id |} ] |}).
Proof.
  unfold update_transcript_segment.
  destruct (get_transcript_returns sha256_hexdigest json_loads db transcript_id)
    as [transcript Hget].
  rewrite Hget. cbn [mbind outcome_bind].
  destruct (py_truthy transcript) eqn:Htruthy; cbn [negb]; [| now left].
  destruct (py_get transcript "segments" (JList [])) as [segments |];
    cbn; [| now left].
  destruct (py_iter segments) as [items |]; cbn; [| now left].
  destruct (update_loop segment_id new_text items) as [[items' |] |];
    cbn; [| now left ..].
  destruct (transcripts db !! transcript_id) as [row |] eqn:Hrow.
  - right. exists row. eexists. split; [reflexivity |].
    do 3 f_equal. apply map_eq. intros key.
    rewrite lookup_alter, lookup_insert.
    case_decide; [subst key; now rewrite Hrow | reflexivity].
  - rewrite (get_transcript_missing _ _ _ _ Hrow) in Hget.
    injection Hget as <-. discriminate Htruthy.
Qed.

(** A read looks at one row only. *)
Lemma get_transcript_row db db' transcript_id :
  transcripts db !! transcript_id = transcripts db' !! transcript_id ->
  get_transcript sha256_hexdigest json_loads db transcript_id
  = get_transcript sha256_hexdigest json_loads db' transcript_id.
Proof. unfold get_transcript. now intros ->. Qed.

(** A row whose hash is that of its data reads as the parsed data. *)
Lemma get_transcript_intact db transcript_id row :
  transcripts db !! transcript_id = Some row ->
  sha256_hexdigest (row_data row) = row_hash row ->
  get_transcript sha256_hexdigest json_loads db transcript_id
  = try_except (json_loads (row_data row)) (fun _ => Returns JNull).
Proof.
  intros Hrow Hhash. unfold get_transcript.
  now rewrite Hrow, Hhash, String.eqb_refl.
Qed.

End WithCodecs.

End StorageWritesFacts.

Module StorageExtras.

Import Storage StorageWrites StorageFacts StorageWritesFacts.

Section WithCodecs.

Variable sha256_hexdigest : string -> string.
Variable json_loads : string -> outcome json.
Variable json_dumps : json -> string.
Variable sqlite_number_text : json -> string.

(** X1. [store_transcript] returns [False] and leaves the database as it
    was when the transcript is not a dictionary, when its ["case_details"]
    is present without being a dictionary ([None] included), when its
    ["segments"] has no length, and when the id is already stored. *)
Theorem store_transcript_refuses
    (db : Database) (timestamp new_log_id transcript_id : string)
    (transcript_data : json) :
  (forall entries, transcript_data <> JDict entries)
  \/ (exists entries value,
         transcript_data = JDict entries
         /\ dict_get "case_details" entries = Some value
         /\ forall fields, value <> JDict fields)
  \/ (exists entries value e,
         transcript_data = JDict entries
         /\ dict_get "segments" entries = Some value
         /\ py_len value = Raises e)
  \/ is_Some (transcripts db !! transcript_id) ->
  store_transcript sha256_hexdigest json_dumps sqlite_number_text db
    timestamp new_log_id transcript_id transcript_data
  = Returns (false, db).
Proof.
  intros Hbad. unfold store_transcript. cbv zeta.
  destruct Hbad as [Hnot | [(entries & value & -> & Hkey & Hnot)
                   | [(entries & value & e & -> & Hkey & Hlen) | [row Hrow]]]].
  - destruct transcript_data; try reflexivity. now destruct (Hnot entries).
  - cbn. rewrite Hkey. cbn.
    destruct value; try reflexivity. now destruct (Hnot entries0).
  - cbn.
    destruct (py_get (default (JDict []) (dict_get "case_details" entries))
                     "case_id" JNull) as [case_id |]; cbn; [| reflexivity].
    destruct (bind_text sqlite_number_text case_id); cbn; [| reflexivity].
    destruct (transcripts db !! transcript_id); cbn; [reflexivity |].
    rewrite Hkey. cbn. now rewrite Hlen.
  - destruct (py_get transcript_data "case_details" (JDict []))
      as [case_details |]; cbn; [| reflexivity].
    destruct (py_get case_details "case_id" JNull) as [case_id |];
      cbn; [| reflexivity].
    destruct (bind_text sqlite_number_text case_id); cbn; [| reflexivity].
    now rewrite Hrow.
Qed.

(** X2. After [store_transcript] has returned [True], the id was new,
    and [get_transcript] of that id passes the integrity check and returns
    what [json.loads] makes of the stored text: the transcript itself when
    [json.loads] inverts [json.dumps] on it. *)
Theorem store_then_get_transcript
    (db db' : Database) (timestamp new_log_id transcript_id : string)
    (transcript_data : json) :
  store_transcript sha256_hexdigest json_dumps sqlite_number_text db
    timestamp new_log_id transcript_id transcript_data
  = Returns (true, db') ->
  transcripts db !! transcript_id = None
  /\ get_transcript sha256_hexdigest json_loads db' transcript_id
     = try_except (json_loads (json_dumps transcript_data))
                  (fun _ => Returns JNull)
  /\ (json_loads (json_dumps transcript_data) = Returns transcript_data ->
      get_transcript sha256_hexdigest json_loads db' transcript_id
      = Returns transcript_data).
Proof.
  intros Hstore.
  destruct (store_transcript_cases sha256_hexdigest json_dumps
              sqlite_number_text db timestamp new_log_id transcript_id
              transcript_data)
    as [Hfail | (case_id & n & Hnew & Hdone)];
    rewrite Hstore in *; [discriminate Hfail |].
  injection Hdone as ->. split; [exact Hnew |].
  match goal with
  | |- context [get_transcript _ _ ?d _] =>
      rewrite (get_transcript_intact sha256_hexdigest json_loads d
                 transcript_id _ (lookup_insert_eq _ _ _) eq_refl)
  end.
  cbn [row_data]. split; [reflexivity |]. now intros ->.
Qed.

(** X3. [delete_transcript] returns [True] exactly when the id is
    stored, whatever the state of its hash; afterwards the id reads as
    [None]; when it returns [False] the database is as before, and when it
    returns [True] the last audit row records the deletion and its
    user. *)
Theorem delete_transcript_forgets
    (db : Database) (timestamp new_log_id transcript_id user : string) :
  exists deleted db',
    delete_transcript db timestamp new_log_id transcript_id user
    = Returns (deleted, db')
    /\ (deleted = true <-> is_Some (transcripts db !! transcript_id))
    /\ (deleted = false -> db' = db)
    /\ transcripts db' !! transcript_id = None
    /\ get_transcript sha256_hexdigest json_loads db' transcript_id
       = Returns JNull
    /\ (deleted = true ->
        last (audit_log db')
        = Some {| log_id := new_log_id;
                  log_transcript_id := transcript_id;
                  log_action := "delete";
                  log_user := user;
                  log_timestamp := timestamp;
                  log_details := "Transcript deleted" |}).
Proof.
  destruct (delete_transcript_cases db timestamp new_log_id transcript_id user)
    as [[Hnone ->] | [Hsome ->]].
  - exists false, db. split; [reflexivity |].
    split; [split; [discriminate | rewrite Hnone; now intros [? ?]] |].
    split; [reflexivity |]. split; [exact Hnone |].
    split; [now apply get_transcript_missing | discriminate].
  - eexists true, _. split; [reflexivity |].
    split; [split; [now intros _ | reflexivity] |].
    split; [discriminate |]. cbn [transcripts audit_log].
    split; [apply lookup_delete_eq |].
    split; [apply get_transcript_missing, lookup_delete_eq |].
    intros _. apply last_snoc.
Qed.

(** X4. If every stored row carries the hash of its data, it still does
    after [store_transcript], [update_transcript_segment] and
    [delete_transcript], whatever they return; and such a row is never read
    as missing for its hash. *)
Theorem writes_keep_hashes_valid (db : Database) :
  map_Forall (fun _ row => sha256_hexdigest (row_data row) = row_hash row)
             (transcripts db) ->
  (forall timestamp new_log_id transcript_id transcript_data stored db',
      store_transcript sha256_hexdigest json_dumps sqlite_number_text db
        timestamp new_log_id transcript_id transcript_data
      = Returns (stored, db') ->
      map_Forall (fun _ row => sha256_hexdigest (row_data row) = row_hash row)
                 (transcripts db'))
  /\ (forall timestamp new_log_id transcript_id segment_id new_text user
             updated db',
        update_transcript_segment sha256_hexdigest json_loads json_dumps db
          timestamp new_log_id transcript_id segment_id new_text user
        = Returns (updated, db') ->
        map_Forall (fun _ row => sha256_hexdigest (row_data row) = row_hash row)
                   (transcripts db'))
  /\ (forall timestamp new_log_id transcript_id user deleted db',
        delete_transcript db timestamp new_log_id transcript_id user
        = Returns (deleted, db') ->
        map_Forall (fun _ row => sha256_hexdigest (row_data row) = row_hash row)
                   (transcripts db'))
  /\ (forall transcript_id row,
        transcripts db !! transcript_id = Some row ->
        get_transcript sha256_hexdigest json_loads db transcript_id
        = try_except (json_loads (row_data row)) (fun _ => Returns JNull)).
Proof.
  intros Hvalid. split; [| split; [| split]].
  - intros timestamp new_log_id transcript_id transcript_data stored db' Hrun.
    destruct (store_transcript_cases sha256_hexdigest json_dumps
                sqlite_number_text db timestamp new_log_id transcript_id
                transcript_data)
      as [Hfail | (case_id & n & _ & Hdone)]; rewrite Hrun in *.
    + now injection Hfail as -> ->.
    + injection Hdone as -> ->. cbn [transcripts].
      apply map_Forall_insert_2; [reflexivity | exact Hvalid].
  - intros timestamp new_log_id transcript_id segment_id new_text user
           updated db' Hrun.
    destruct (update_transcript_segment_cases sha256_hexdigest json_loads
                json_dumps db timestamp new_log_id transcript_id segment_id
                new_text user)
      as [Hfail | (row & json_data & _ & Hdone)]; rewrite Hrun in *.
    + now injection Hfail as -> ->.
    + injection Hdone as -> ->. cbn [transcripts].
      apply map_Forall_insert_2; [reflexivity | exact Hvalid].
  - intros timestamp new_log_id transcript_id user deleted db' Hrun.
    destruct (delete_transcript_cases db timestamp new_log_id transcript_id
                user) as [[_ Hdone] | [_ Hdone]]; rewrite Hrun in *.
    + now injection Hdone as -> ->.
    + injection Hdone as -> ->. cbn [transcripts].
      now apply map_Forall_delete.
  - intros transcript_id row Hrow. apply get_transcript_intact; [exact Hrow |].
    exact (Hvalid _ _ Hrow).
Qed.

(** X5. The audit log only grows: each of the three writes appends one
    row, naming the transcript and the action, when it returns [True], and
    leaves the log as it was when it returns [False]. *)
Theorem audit_log_append_only (db : Database) :
  (forall timestamp new_log_id transcript_id transcript_data stored db',
      store_transcript sha256_hexdigest json_dumps sqlite_number_text db
        timestamp new_log_id transcript_id transcript_data
      = Returns (stored, db') ->
      if stored
      then exists row,
          audit_log db' = audit_log db ++ [row]
          /\ log_transcript_id row = transcript_id
          /\ log_action row = "create" /\ log_user row = "system"
      else audit_log db' = audit_log db)
  /\ (forall timestamp new_log_id transcript_id segment_id new_text user
             updated db',
        update_transcript_segment sha256_hexdigest json_loads json_dumps db
          timestamp new_log_id transcript_id segment_id new_text user
        = Returns (updated, db') ->
        if updated
        then exists row,
            audit_log db' = audit_log db ++ [row]
            /\ log_transcript_id row = transcript_id
            /\ log_action row = "update_segment" /\ log_user row = user
        else audit_log db' = audit_log db)
  /\ (forall timestamp new_log_id transcript_id user deleted db',
        delete_transcript db timestamp new_log_id transcript_id user
        = Returns (deleted, db') ->
        if deleted
        then exists row,
            audit_log db' = audit_log db ++ [row]
            /\ log_transcript_id row = transcript_id
            /\ log_action row = "delete" /\ log_user row = user
        else audit_log db' = audit_log db).
Proof.
  split; [| split].
  - intros timestamp new_log_id transcript_id transcript_data stored db' Hrun.
    destruct (store_transcript_cases sha256_hexdigest json_dumps
                sqlite_number_text db timestamp new_log_id transcript_id
                transcript_data)
      as [Hfail | (case_id & n & _ & Hdone)]; rewrite Hrun in *.
    + now injection Hfail as -> ->.
    + injection Hdone as -> ->. now eexists.
  - intros timestamp new_log_id transcript_id segment_id new_text user
           updated db' Hrun.
    destruct (update_transcript_segment_cases sha256_hexdigest json_loads
                json_dumps db timestamp new_log_id transcript_id segment_id
                new_text user)
      as [Hfail | (row & json_data & _ & Hdone)]; rewrite Hrun in *.
    + now injection Hfail as -> ->.
    + injection Hdone as -> ->. now eexists.
  - intros timestamp new_log_id transcript_id user deleted db' Hrun.
    destruct (delete_transcript_cases db timestamp new_log_id transcript_id
                user) as [[_ Hdone] | [_ Hdone]]; rewrite Hrun in *.
    + now injection Hdone as -> ->.
    + injection Hdone as -> ->. now eexists.
Qed.

(** X6. A write to one transcript leaves every other transcript alone:
    after [store_transcript], [update_transcript_segment] or
    [delete_transcript] of one id, the row of any other id, and what
    [get_transcript] returns for it, are unchanged. *)
Theorem writes_touch_one_transcript (db : Database) (other : string) :
  (forall timestamp new_log_id transcript_id transcript_data stored db',
      transcript_id <> other ->
      store_transcript sha256_hexdigest json_dumps sqlite_number_text db
        timestamp new_log_id transcript_id transcript_data
      = Returns (stored, db') ->
      transcripts db' !! other = transcripts db !! other
      /\ get_transcript sha256_hexdigest json_loads db' other
         = get_transcript sha256_hexdigest json_loads db other)
  /\ (forall timestamp new_log_id transcript_id segment_id new_text user
             updated db',
        transcript_id <> other ->
        update_transcript_segment sha256_hexdigest json_loads json_dumps db
          timestamp new_log_id transcript_id segment_id new_text user
        = Returns (updated, db') ->
        transcripts db' !! other = transcripts db !! other
        /\ get_transcript sha256_hexdigest json_loads db' other
           = get_transcript sha256_hexdigest json_loads db other)
  /\ (forall timestamp new_log_id transcript_id user deleted db',
        transcript_id <> other ->
        delete_transcript db timestamp new_log_id transcript_id user
        = Returns (deleted, db') ->
        transcripts db' !! other = transcripts db !! other
        /\ get_transcript sha256_hexdigest json_loads db' other
           = get_transcript sha256_hexdigest json_loads db other).
Proof.
  assert (Hread : forall db', transcripts db' !! other = transcripts db !! other ->
            transcripts db' !! other = transcripts db !! other
            /\ get_transcript sha256_hexdigest json_loads db' other
               = get_transcript sha256_hexdigest json_loads db other).
  { intros db' Hsame. split; [exact Hsame |]. now apply get_transcript_row. }
  split; [| split].
  - intros timestamp new_log_id transcript_id transcript_data stored db'
           Hother Hrun. apply Hread.
    destruct (store_transcript_cases sha256_hexdigest json_dumps
                sqlite_number_text db timestamp new_log_id transcript_id
                transcript_data)
      as [Hfail | (case_id & n & _ & Hdone)]; rewrite Hrun in *.
    + now injection Hfail as -> ->.
    + injection Hdone as -> ->. cbn [transcripts].
      now apply lookup_insert_ne.
  - intros timestamp new_log_id transcript_id segment_id new_text user
           updated db' Hother Hrun. apply Hread.
    destruct (update_transcript_segment_cases sha256_hexdigest json_loads
                json_dumps db timestamp new_log_id transcript_id segment_id
                new_text user)
      as [Hfail | (row & json_data & _ & Hdone)]; rewrite Hrun in *.
    + now injection Hfail as -> ->.
    + injection Hdone as -> ->. cbn [transcripts].
      now apply lookup_insert_ne.
  - intros timestamp new_log_id transcript_id user deleted db' Hother Hrun.
    apply Hread.
    destruct (delete_transcript_cases db timestamp new_log_id transcript_id
                user) as [[_ Hdone] | [_ Hdone]]; rewrite Hrun in *.
    + now injection Hdone as -> ->.
    + injection Hdone as -> ->. cbn [transcripts].
      now apply lookup_delete_ne.
Qed.

(** X7. Deleting a transcript that was just stored succeeds and gives
    back the table of transcripts as it was before the store, while the
    audit log keeps both rows, the creation and then the deletion. *)
Theorem store_then_delete_transcript
    (db db1 : Database) (timestamp timestamp' new_log_id new_log_id' : string)
    (transcript_id user : string) (transcript_data : json) :
  store_transcript sha256_hexdigest json_dumps sqlite_number_text db
    timestamp new_log_id transcript_id transcript_data
  = Returns (true, db1) ->
  exists db2 created deleted,
    delete_transcript db1 timestamp' new_log_id' transcript_id user
    = Returns (true, db2)
    /\ transcripts db2 = transcripts db
    /\ audit_log db2 = audit_log db ++ [created; deleted]
    /\ log_action created = "create" /\ log_action deleted = "delete"
    /\ log_transcript_id created = transcript_id
    /\ log_transcript_id deleted = transcript_id.
Proof.
  intros Hstore.
  destruct (store_transcript_cases sha256_hexdigest json_dumps
              sqlite_number_text db timestamp new_log_id transcript_id
              transcript_data)
    as [Hfail | (case_id & n & Hnew & Hdone)];
    rewrite Hstore in *; [discriminate Hfail |].
  injection Hdone as ->.
  unfold delete_transcript. cbn [transcripts audit_log].
  rewrite lookup_insert_eq. cbn.
  eexists _, _, _. split; [reflexivity |]. cbn [transcripts audit_log].
  split; [now apply delete_insert_id |].
  split; [now rewrite <- app_assoc |]. now repeat split.
Qed.

End WithCodecs.

(** Stand-ins for the codecs, and a transcript as [process_audio] shapes
    one, used by the witnesses below. *)
Lemma store_transcript_refuses_witness :
  store_transcript (fun s => "sha256:" +:+ s) (fun _ => "stored")
    (fun _ => "0") {| transcripts := ∅; audit_log := [] |}
    "2024-01-01T10:00:00" "log-1" "t1"
    (JDict [("id", JStr "t1"); ("segments", JList []);
            ("case_details", JNull); ("status", JStr "success")])
  = Returns (false, {| transcripts := ∅; audit_log := [] |}).
Proof.
  apply store_transcript_refuses. right. left.
  exists [("id", JStr "t1"); ("segments", JList []);
          ("case_details", JNull); ("status", JStr "success")], JNull.
  repeat split. discriminate.
Defined.

Lemma store_then_get_transcript_witness :
  let stored :=
    JDict [("id", JStr "t1"); ("segments", JList []);
           ("case_details", JDict [("case_id", JStr "C-7")]);
           ("status", JStr "success")] in
  exists db',
    store_transcript (fun s => "sha256:" +:+ s) (fun _ => "stored")
      (fun _ => "0") {| transcripts := ∅; audit_log := [] |}
      "2024-01-01T10:00:00" "log-1" "t1" stored
    = Returns (true, db')
    /\ get_transcript (fun s => "sha256:" +:+ s) (fun _ => Returns stored)
         db' "t1"
       = Returns stored.
Proof.
  cbv zeta. eexists. split; [reflexivity |].
  eapply (store_then_get_transcript
            (fun s => "sha256:" +:+ s) _ (fun _ => "stored") (fun _ => "0")
            {| transcripts := ∅; audit_log := [] |});
    reflexivity.
Defined.

Lemma writes_keep_hashes_valid_witness :
  exists db',
    store_transcript (fun s => "sha256:" +:+ s) (fun _ => "stored")
      (fun _ => "0") {| transcripts := ∅; audit_log := [] |}
      "2024-01-01T10:00:00" "log-1" "t1"
      (JDict [("segments", JList [])])
    = Returns (true, db')
    /\ map_Forall (fun _ row => "sha256:" +:+ row_data row = row_hash row)
                  (transcripts db').
Proof.
  destruct (writes_keep_hashes_valid
              (fun s => "sha256:" +:+ s) (fun _ => Returns JNull)
              (fun _ => "stored") (fun _ => "0")
              {| transcripts := ∅; audit_log := [] |}
              (map_Forall_empty _)) as [Hstore _].
  eexists. split; [reflexivity |].
  apply (Hstore "2024-01-01T10:00:00" "log-1" "t1"
                (JDict [("segments", JList [])]) true).
  reflexivity.
Defined.

Lemma store_then_delete_transcript_witness :
  exists db1 db2,
    store_transcript (fun s => "sha256:" +:+ s) (fun _ => "stored")
      (fun _ => "0") {| transcripts := ∅; audit_log := [] |}
      "2024-01-01T10:00:00" "log-1" "t1" (JDict [("segments", JList [])])
    = Returns (true, db1)
    /\ delete_transcript db1 "2024-01-02T09:00:00" "log-2" "t1" "judge1"
       = Returns (true, db2)
    /\ transcripts db2 = ∅.
Proof.
  pose (db1 :=
          match
            store_transcript (fun s => "sha256:" +:+ s) (fun _ => "stored")
              (fun _ => "0") {| transcripts := ∅; audit_log := [] |}
              "2024-01-01T10:00:00" "log-1" "t1"
              (JDict [("segments", JList [])])
          with
          | Returns (_, db') => db'
          | Raises _ => {| transcripts := ∅; audit_log := [] |}
          end).
  assert (Hstore :
            store_transcript (fun s => "sha256:" +:+ s) (fun _ => "stored")
              (fun _ => "0") {| transcripts := ∅; audit_log := [] |}
              "2024-01-01T10:00:00" "log-1" "t1"
              (JDict [("segments", JList [])])
            = Returns (true, db1)) by reflexivity.
  destruct (store_then_delete_transcript
              (fun s => "sha256:" +:+ s) (fun _ => "stored") (fun _ => "0")
              {| transcripts := ∅; audit_log := [] |} db1
              "2024-01-01T10:00:00" "2024-01-02T09:00:00" "log-1" "log-2"
              "t1" "judge1" (JDict [("segments", JList [])]) Hstore)
    as (db2 & created & deleted & Hdelete & Htable & _).
  exists db1, db2. split; [exact Hstore |].
  split; [exact Hdelete | exact Htable].
Defined.

End StorageExtras.

(** ** More on the fusion and on what [process_audio] hands over *)

Module FusionExtras.

Import PyNumFacts Fusion FusionFacts.

(** The turn the loop ends on has the largest overlap of all. *)
Lemma winner_is_largest segment before winner after :
  Forall (fun d => (overlap segment d <? overlap segment winner)%float = true)
         before ->
  Forall (fun d => (overlap segment winner <? overlap segment d)%float = false)
         after ->
  forall d, d ∈ before ++ winner :: after ->
            (overlap segment winner <? overlap segment d)%float = false.
Proof.
  intros Hbefore Hafter d [Hd | [-> | Hd]%elem_of_cons]%elem_of_app.
  - apply ltb_asym. eapply Forall_forall in Hbefore; eassumption.
  - apply ltb_irrefl.
  - eapply Forall_forall in Hafter; eassumption.
Qed.

(** X8. The order of the diarization turns matters only for ties: when
    any two turns that tie on a positive overlap with the segment carry the
    same label, every reordering of the turns gives the same fused
    speaker. *)
Theorem best_speaker_order_independent
    (segment : TranscribedSegment)
    (speaker_segments reordered : list DiarizationTurn) :
  speaker_segments ≡ₚ reordered ->
  (forall d d',
      d ∈ speaker_segments -> d' ∈ speaker_segments ->
      (0 <? overlap segment d)%float = true ->
      (overlap segment d <? overlap segment d')%float = false ->
      (overlap segment d' <? overlap segment d)%float = false ->
      spk_speaker d = spk_speaker d') ->
  best_speaker segment speaker_segments = best_speaker segment reordered.
Proof.
  intros Hperm Hties. unfold best_speaker.
  pose proof (find_speaker_scanned segment speaker_segments) as Hone.
  pose proof (find_speaker_scanned segment reordered) as Htwo.
  inversion Hone as [seen Hnone Hseen Hst | before winner after Hpos Hbefore
                                              Hafter Hseen Hst];
    inversion Htwo as [seen' Hnone' Hseen' Hst' | before' winner' after' Hpos'
                                                  Hbefore' Hafter' Hseen' Hst'];
    cbn [fst]; try reflexivity.
  - (* a winner after reordering, none before: impossible *)
    exfalso.
    assert (Hin : winner' ∈ speaker_segments).
    { rewrite Hperm, <- Hseen'. apply elem_of_app. right. left. }
    eapply Forall_forall in Hnone; [| exact Hin]. cbn beta in Hnone. congruence.
  - exfalso.
    assert (Hin : winner ∈ reordered).
    { rewrite <- Hperm, <- Hseen. apply elem_of_app. right. left. }
    eapply Forall_forall in Hnone'; [| exact Hin]. cbn beta in Hnone'.
    congruence.
  - assert (Hin : winner ∈ speaker_segments)
      by (rewrite <- Hseen; apply elem_of_app; right; left).
    assert (Hin' : winner' ∈ reordered)
      by (rewrite <- Hseen'; apply elem_of_app; right; left).
    apply Hties; try assumption.
    + now rewrite Hperm.
    + apply (winner_is_largest segment before winner after Hbefore Hafter).
      rewrite Hseen, Hperm. exact Hin'.
    + apply (winner_is_largest segment before' winner' after' Hbefore' Hafter').
      rewrite Hseen', <- Hperm. exact Hin.
Qed.

(** Two turns with different overlaps, in either order. *)
Lemma best_speaker_order_independent_witness :
  let segment :=
    {| seg_start := 10; seg_end := 20; seg_text := "Objection.";
       seg_confidence := None |} in
  let judge := {| spk_start := 0; spk_end := 14; spk_speaker := "Judge" |} in
  let clerk := {| spk_start := 14; spk_end := 25; spk_speaker := "Clerk" |} in
  best_speaker segment [judge; clerk] = best_speaker segment [clerk; judge].
Proof.
  cbv zeta. apply best_speaker_order_independent.
  - apply Permutation_swap.
  - intros d d' Hd Hd' _.
    apply elem_of_cons in Hd as [-> | Hd%list_elem_of_singleton];
      apply elem_of_cons in Hd' as [-> | Hd'%list_elem_of_singleton];
      subst; try reflexivity; vm_compute; discriminate.
Defined.

End FusionExtras.

Module PipelineExtras.

Import Fusion FusionFacts Orchestrator PipelineClaims TranscriptJson.
Import Storage StorageWrites StorageWritesFacts.

(** The identifiers of the fused segments are the draws [k], [k+1], ... *)
Lemma combine_ids (uuid4 : nat -> string) k transcribed_segments
    speaker_segments :
  fs_id <$> fst (_combine_transcription_with_speakers
                   uuid4 k transcribed_segments speaker_segments)
  = uuid4 <$> seq k (length transcribed_segments).
Proof.
  rewrite combine_imap. cbn [fst]. apply list_eq. intros i.
  rewrite !list_lookup_fmap, list_lookup_imap.
  destruct (transcribed_segments !! i) as [segment |] eqn:Hi; cbn.
  - apply lookup_lt_Some in Hi as Hlt.
    now rewrite lookup_seq_lt by exact Hlt.
  - apply lookup_ge_None in Hi. now rewrite lookup_seq_ge by exact Hi.
Qed.

Section ProcessAudio.

Variable uuid4 : nat -> string.
Variable services : Services.
Variable clock : Clock.

(** What a returned transcript is made of. *)
Lemma process_audio_returns k audio_file case_id transcript :
  process_audio uuid4 services clock k audio_file case_id = Returns transcript ->
  exists clean_audio_file speaker_segments transcribed_segments name,
    model_transcribe services clean_audio_file = Returns transcribed_segments
    /\ model_name services = Returns name
    /\ (diarization_service_diarize services clean_audio_file
        = Returns speaker_segments
        \/ (exists e, diarization_service_diarize services clean_audio_file
                      = Raises e)
           /\ speaker_segments = [])
    /\ transcript
       = assemble services clock name
           (uuid4 (k + length transcribed_segments)) audio_file case_id
           speaker_segments
           (fst (_combine_transcription_with_speakers
                   uuid4 k transcribed_segments speaker_segments)).
Proof.
  rewrite process_audio_stages. cbv zeta.
  set (clean := match noise_suppression_process services audio_file with
                | Returns path => path
                | Raises _ => audio_file
                end).
  destruct (model_transcribe services clean) as [segs |] eqn:Hsegs;
    [| discriminate].
  destruct (model_name services) as [name |] eqn:Hname; [| discriminate].
  intros [= <-]. exists clean.
  destruct (diarization_service_diarize services clean) as [turns | e].
  - exists turns, segs, name. split; [exact Hsegs |].
    split; [reflexivity |]. split; [now left | reflexivity].
  - exists [], segs, name. split; [exact Hsegs |]. split; [reflexivity |].
    split; [right; split; [now eexists | reflexivity] | reflexivity].
Qed.

(** X9. When the draws of [uuid4] are pairwise different, the transcript
    returned by [process_audio] has segment ids that are pairwise
    different, and different from the id of the transcript. *)
Theorem process_audio_ids_distinct k audio_file case_id transcript :
  (forall i j, uuid4 i = uuid4 j -> i = j) ->
  process_audio uuid4 services clock k audio_file case_id = Returns transcript ->
  NoDup (tr_id transcript :: (fs_id <$> tr_segments transcript)).
Proof.
  intros Hinj (clean & turns & segs & name & _ & _ & _ & ->)%process_audio_returns.
  cbn [assemble tr_id tr_segments]. rewrite combine_ids.
  change (uuid4 (k + length segs) :: (uuid4 <$> seq k (length segs)))
    with (uuid4 <$> (k + length segs) :: seq k (length segs)).
  apply NoDup_fmap_2; [exact Hinj |].
  apply NoDup_cons. split; [| apply NoDup_seq].
  rewrite elem_of_seq. lia.
Qed.

(** X10. When the diarization call raises, the speech recognition
    returns and the read of [self.model.name] gives a name,
    [process_audio] returns one segment per transcribed segment, every one
    with the speaker "Unknown", and the metadata count no speaker and name
    the model. *)
Theorem process_audio_without_diarization k audio_file case_id :
  let clean_audio_file :=
    match noise_suppression_process services audio_file with
    | Returns path => path
    | Raises _ => audio_file
    end in
  forall e transcribed_segments name,
    diarization_service_diarize services clean_audio_file = Raises e ->
    model_transcribe services clean_audio_file = Returns transcribed_segments ->
    model_name services = Returns name ->
    exists transcript,
      process_audio uuid4 services clock k audio_file case_id
      = Returns transcript
      /\ length (tr_segments transcript) = length transcribed_segments
      /\ Forall (fun f => fs_speaker f = "Unknown") (tr_segments transcript)
      /\ md_speakers_detected (tr_metadata transcript) = 0%nat
      /\ md_model (tr_metadata transcript) = "whisper-" +:+ name.
Proof.
  cbv zeta. intros e segs name Hdiarize Hsegs Hname.
  rewrite process_audio_stages. cbv zeta. rewrite Hdiarize, Hsegs, Hname.
  eexists. split; [reflexivity |]. cbn [assemble tr_segments tr_metadata].
  rewrite combine_imap. cbn [fst].
  split; [apply length_imap |]. split; [| split; reflexivity].
  apply Forall_lookup_2. intros i f. rewrite list_lookup_imap.
  destruct (segs !! i); cbn; [| discriminate]. now intros [= <-].
Qed.

Section WithStorage.

Variable sha256_hexdigest : string -> string.
Variable json_loads : string -> outcome json.
Variable json_dumps : json -> string.
Variable sqlite_number_text : json -> string.

(** X11. A transcript that [process_audio] returned for a call without a
    case id ([None] or the empty string) carries ["case_details": None],
    on which [store_transcript] fails: it returns [False] and the database
    keeps no trace of the transcript. *)
Theorem transcript_without_case_is_not_stored
    k audio_file case_id transcript db timestamp new_log_id :
  process_audio uuid4 services clock k audio_file case_id = Returns transcript ->
  case_id = None \/ case_id = Some EmptyString ->
  store_transcript sha256_hexdigest json_dumps sqlite_number_text db
    timestamp new_log_id (tr_id transcript) (transcript_json transcript)
  = Returns (false, db).
Proof.
  intros (clean & turns & segs & name & _ & _ & _ & ->)%process_audio_returns Hcase.
  assert (Hnone : case_details_of clock case_id = None)
    by (destruct Hcase as [-> | ->]; reflexivity).
  unfold store_transcript, transcript_json. cbv zeta.
  cbn [assemble tr_case_details]. rewrite Hnone. reflexivity.
Qed.

(** X12. A transcript that [process_audio] returned for a call with a
    non-empty case id, under an id not yet stored, is stored by
    [store_transcript] with that case id in its row and one audit row that
    counts its segments; [get_transcript] then returns the dictionary,
    when [json.loads] inverts [json.dumps] on it. *)
Theorem transcript_with_case_is_stored
    k audio_file (case : string) transcript db timestamp new_log_id :
  process_audio uuid4 services clock k audio_file (Some case)
  = Returns transcript ->
  case <> EmptyString ->
  transcripts db !! tr_id transcript = None ->
  exists db',
    store_transcript sha256_hexdigest json_dumps sqlite_number_text db
      timestamp new_log_id (tr_id transcript) (transcript_json transcript)
    = Returns (true, db')
    /\ row_case_id <$> transcripts db' !! tr_id transcript = Some (Some case)
    /\ log_details <$> last (audit_log db')
       = Some ("Created transcript with "
               +:+ pretty (length (tr_segments transcript)) +:+ " segments")
    /\ (json_loads (json_dumps (transcript_json transcript))
        = Returns (transcript_json transcript) ->
        get_transcript sha256_hexdigest json_loads db' (tr_id transcript)
        = Returns (transcript_json transcript)).
Proof.
  intros (clean & turns & segs & name & _ & _ & _ & ->)%process_audio_returns Hcase Hnew.
  assert (Hsome : case_details_of clock (Some case)
                  = Some (_get_case_details clock case)).
  { cbn. destruct (String.eqb_spec case EmptyString); [contradiction | easy]. }
  unfold store_transcript, transcript_json. cbv zeta.
  cbn [assemble tr_case_details tr_id tr_segments] in *. rewrite Hsome.
  cbn. rewrite Hnew. cbn. eexists. split; [reflexivity |].
  cbn [transcripts audit_log]. rewrite lookup_insert_eq, last_snoc.
  cbn. rewrite length_fmap.
  split; [reflexivity |]. split; [reflexivity |]. intros Hround.
  erewrite get_transcript_intact;
    [| apply lookup_insert_eq | reflexivity].
  cbn [row_data]. now rewrite Hround.
Qed.

End WithStorage.

End ProcessAudio.

(** A run with one transcribed segment and a diarization that raises,
    under stand-in codecs; the identifiers are decimal numerals. *)
Lemma process_audio_ids_distinct_witness :
  let services :=
    {| noise_suppression_process := fun f => Returns f;
       diarization_service_diarize := fun _ => Raises (PyExn "diarize");
       model_transcribe := fun _ =>
         Returns [ {| seg_start := 0; seg_end := 4; seg_text := "All rise.";
                      seg_confidence := None |};
                   {| seg_start := 4; seg_end := 9; seg_text := "Be seated.";
                      seg_confidence := None |} ];
       storage_service_store_transcript := fun _ _ => Returns false;
       model_name := Returns "base";
       device := "cpu" |} in
  let clock :=
    {| start_time := 100; metadata_time := 103;
       now_isoformat := "2024-01-01T10:00:00"; now_date := "2024-01-01" |} in
  exists transcript,
    process_audio pretty services clock 0 "uploads/hearing.wav" None
    = Returns transcript
    /\ NoDup (tr_id transcript :: (fs_id <$> tr_segments transcript)).
Proof.
  cbv zeta. eexists. split; [reflexivity |].
  match goal with
  | |- NoDup (tr_id ?t :: _) =>
      apply (process_audio_ids_distinct pretty
               {| noise_suppression_process := fun f => Returns f;
                  diarization_service_diarize :=
                    fun _ => Raises (PyExn "diarize");
                  model_transcribe := fun _ =>
                    Returns [ {| seg_start := 0; seg_end := 4;
                                 seg_text := "All rise.";
                                 seg_confidence := None |};
                              {| seg_start := 4; seg_end := 9;
                                 seg_text := "Be seated.";
                                 seg_confidence := None |} ];
                  storage_service_store_transcript :=
                    fun _ _ => Returns false;
                  model_name := Returns "base";
                  device := "cpu" |}
               {| start_time := 100; metadata_time := 103;
                  now_isoformat := "2024-01-01T10:00:00";
                  now_date := "2024-01-01" |}
               0 "uploads/hearing.wav" None t)
  end; [| reflexivity].
  intros i j. apply pretty_nat_inj.
Defined.

Lemma process_audio_without_diarization_witness :
  let services :=
    {| noise_suppression_process := fun f => Returns f;
       diarization_service_diarize := fun _ => Raises (PyExn "diarize");
       model_transcribe := fun _ =>
         Returns [ {| seg_start := 0; seg_end := 4; seg_text := "All rise.";
                      seg_confidence := None |} ];
       storage_service_store_transcript := fun _ _ => Returns false;
       model_name := Returns "base";
       device := "cpu" |} in
  let clock :=
    {| start_time := 100; metadata_time := 103;
       now_isoformat := "2024-01-01T10:00:00"; now_date := "2024-01-01" |} in
  exists transcript,
    process_audio pretty services clock 0 "uploads/hearing.wav" None
    = Returns transcript
    /\ Forall (fun f => fs_speaker f = "Unknown") (tr_segments transcript).
Proof.
  cbv zeta.
  destruct (process_audio_without_diarization pretty
              {| noise_suppression_process := fun f => Returns f;
                 diarization_service_diarize := fun _ => Raises (PyExn "diarize");
                 model_transcribe := fun _ =>
                   Returns [ {| seg_start := 0; seg_end := 4;
                                seg_text := "All rise.";
                                seg_confidence := None |} ];
                 storage_service_store_transcript := fun _ _ => Returns false;
                 model_name := Returns "base";
                 device := "cpu" |}
              {| start_time := 100; metadata_time := 103;
                 now_isoformat := "2024-01-01T10:00:00";
                 now_date := "2024-01-01" |}
              0 "uploads/hearing.wav" None _ _ _ eq_refl eq_refl eq_refl)
    as (transcript & Hrun & _ & Hunknown & _).
  exists transcript. now split.
Defined.

Lemma transcript_without_case_is_not_stored_witness :
  let services :=
    {| noise_suppression_process := fun f => Returns f;
       diarization_service_diarize := fun _ => Returns [];
       model_transcribe := fun _ =>
         Returns [ {| seg_start := 0; seg_end := 4; seg_text := "All rise.";
                      seg_confidence := None |} ];
       storage_service_store_transcript := fun _ _ => Returns false;
       model_name := Returns "base";
       device := "cpu" |} in
  let clock :=
    {| start_time := 100; metadata_time := 103;
       now_isoformat := "2024-01-01T10:00:00"; now_date := "2024-01-01" |} in
  exists transcript,
    process_audio pretty services clock 0 "uploads/hearing.wav" None
    = Returns transcript
    /\ store_transcript (fun s => "sha256:" +:+ s) (fun _ => "stored")
         (fun _ => "0") {| transcripts := ∅; audit_log := [] |}
         "2024-01-01T10:00:05" "log-1" (tr_id transcript)
         (transcript_json transcript)
       = Returns (false, {| transcripts := ∅; audit_log := [] |}).
Proof.
  cbv zeta. eexists. split; [reflexivity |].
  match goal with
  | |- store_transcript _ _ _ _ _ _ (tr_id ?t) _ = _ =>
      apply (transcript_without_case_is_not_stored pretty
               {| noise_suppression_process := fun f => Returns f;
                  diarization_service_diarize := fun _ => Returns [];
                  model_transcribe := fun _ =>
                    Returns [ {| seg_start := 0; seg_end := 4;
                                 seg_text := "All rise.";
                                 seg_confidence := None |} ];
                  storage_service_store_transcript :=
                    fun _ _ => Returns false;
                  model_name := Returns "base";
                  device := "cpu" |}
               {| start_time := 100; metadata_time := 103;
                  now_isoformat := "2024-01-01T10:00:00";
                  now_date := "2024-01-01" |}
               (fun s => "sha256:" +:+ s) (fun _ => "stored") (fun _ => "0")
               0 "uploads/hearing.wav" None t)
  end; [reflexivity | now left].
Defined.

Lemma transcript_with_case_is_stored_witness :
  let services :=
    {| noise_suppression_process := fun f => Returns f;
       diarization_service_diarize := fun _ => Returns [];
       model_transcribe := fun _ =>
         Returns [ {| seg_start := 0; seg_end := 4; seg_text := "All rise.";
                      seg_confidence := None |} ];
       storage_service_store_transcript := fun _ _ => Returns true;
       model_name := Returns "base";
       device := "cpu" |} in
  let clock :=
    {| start_time := 100; metadata_time := 103;
       now_isoformat := "2024-01-01T10:00:00"; now_date := "2024-01-01" |} in
  exists transcript db',
    process_audio pretty services clock 0 "uploads/hearing.wav" (Some "C-7")
    = Returns transcript
    /\ store_transcript (fun s => "sha256:" +:+ s) (fun _ => "stored")
         (fun _ => "0") {| transcripts := ∅; audit_log := [] |}
         "2024-01-01T10:00:05" "log-1" (tr_id transcript)
         (transcript_json transcript)
       = Returns (true, db').
Proof.
  cbv zeta. eexists.
  edestruct (transcript_with_case_is_stored pretty
               {| noise_suppression_process := fun f => Returns f;
                  diarization_service_diarize := fun _ => Returns [];
                  model_transcribe := fun _ =>
                    Returns [ {| seg_start := 0; seg_end := 4;
                                 seg_text := "All rise.";
                                 seg_confidence := None |} ];
                  storage_service_store_transcript := fun _ _ => Returns true;
                  model_name := Returns "base";
                  device := "cpu" |}
               {| start_time := 100; metadata_time := 103;
                  now_isoformat := "2024-01-01T10:00:00";
                  now_date := "2024-01-01" |}
               (fun s => "sha256:" +:+ s) (fun _ => Returns JNull)
               (fun _ => "stored") (fun _ => "0")
               0 "uploads/hearing.wav" "C-7" _
               {| transcripts := ∅; audit_log := [] |}
               "2024-01-01T10:00:05" "log-1" eq_refl)
    as (db' & Hstore & _); [discriminate | reflexivity |].
  exists db'. split; [reflexivity | exact Hstore].
Defined.

End PipelineExtras.

(** ** Diarization: the two modes of [diarize] *)

Module DiarizationExtras.

Import Diarization DiarizationFacts DiarizationInit.

(** With librosa imported, the fallback returns. *)
Lemma generate_mock_segments_returns librosa_duration audio_file :
  exists turns,
    _generate_mock_segments (Returns tt) librosa_duration audio_file
    = Returns turns.
Proof.
  unfold _generate_mock_segments, num_segments_of. cbn [mbind outcome_bind].
  destruct (librosa_duration audio_file) as [duration |]; cbn; [| eauto].
  destruct (py_int _); cbn; eauto.
Qed.

(** X13. [diarize] raises exactly when it falls back and the fallback's
    [import librosa] raises; with librosa importable it never raises.  A
    service built without pyannote, without a token, with an empty token
    or with a pipeline that failed to load answers with the fallback, and
    so does any service whose pipeline raises on the file.  When the
    pipeline returns, librosa is not needed: there is one turn per track,
    in order, with the times of the track and the role that
    [_map_speaker_to_role] gives its label. *)
Theorem diarize_modes
    (self : DiarizationService) (import_librosa : outcome unit)
    (librosa_duration : string -> outcome float) (audio_file : string) :
  (forall e,
      diarize self import_librosa librosa_duration audio_file = Raises e
      <-> import_librosa = Raises e
          /\ (diarization_available self = false
              \/ exists e', pipeline self audio_file = Raises e'))
  /\ (forall PYANNOTE_AVAILABLE hf_token from_pretrained,
        PYANNOTE_AVAILABLE = false
        \/ hf_token = None
        \/ hf_token = Some EmptyString
        \/ (exists token e, hf_token = Some token
                            /\ from_pretrained token = Raises e) ->
        diarize (__init__ PYANNOTE_AVAILABLE hf_token from_pretrained)
                import_librosa librosa_duration audio_file
        = _generate_mock_segments import_librosa librosa_duration audio_file)
  /\ (diarization_available self = false
      \/ (exists e, pipeline self audio_file = Raises e) ->
      diarize self import_librosa librosa_duration audio_file
      = _generate_mock_segments import_librosa librosa_duration audio_file)
  /\ (forall tracks,
        diarization_available self = true ->
        pipeline self audio_file = Returns tracks ->
        exists turns,
          diarize self import_librosa librosa_duration audio_file
          = Returns turns
          /\ length turns = length tracks
          /\ forall i,
              turns !! i
              = (fun t => {| spk_start := turn_start t;
                             spk_end := turn_end t;
                             spk_speaker :=
                               _map_speaker_to_role (track_label t) |})
                  <$> tracks !! i).
Proof.
  split; [| split; [| split]].
  - intros e. unfold diarize.
    destruct (generate_mock_segments_returns librosa_duration audio_file)
      as [turns Hmock].
    destruct import_librosa as [[] | e0].
    + destruct (diarization_available self); cbn [negb].
      * destruct (pipeline self audio_file); cbn [mbind outcome_bind try_except];
          [| rewrite Hmock]; (split; [discriminate | intros [[=] _]]).
      * rewrite Hmock. split; [discriminate | intros [[=] _]].
    + destruct (diarization_available self) eqn:Hon; cbn [negb].
      * destruct (pipeline self audio_file) as [tracks | e1];
          cbn [mbind outcome_bind try_except _generate_mock_segments].
        -- split; [discriminate |].
           intros [_ [[=] | [e' [=]]]].
        -- split; [intros [= <-]; split; [reflexivity | right; eauto] |].
           now intros [[= <-] _].
      * cbn [mbind outcome_bind _generate_mock_segments].
        split; [intros [= <-]; split; [reflexivity | now left] |].
        now intros [[= <-] _].
  - intros available hf_token from_pretrained Hoff. unfold __init__, diarize.
    destruct Hoff as [-> | [-> | [-> | (token & e & -> & Hload)]]].
    + destruct hf_token; reflexivity.
    + reflexivity.
    + now destruct available.
    + rewrite Hload. now destruct (_ && _).
  - intros [Hoff | [e Hraise]]; unfold diarize.
    + now rewrite Hoff.
    + rewrite Hraise. now destruct (diarization_available self).
  - intros tracks Hon Htracks. unfold diarize. rewrite Hon, Htracks. cbn.
    eexists. split; [reflexivity |]. rewrite fold_left_append. cbn [app].
    split; [apply length_fmap | intros i; apply list_lookup_fmap].
Qed.

End DiarizationExtras.

(** ** Listing the transcripts *)

Module ListingExtras.

Import StorageListing.

Section WithCodecs.

Variable json_loads : string -> outcome json.

(** The loop returns exactly when every row has a summary. *)
Lemma summaries_of_returns user_role rows results :
  summaries_of json_loads user_role rows = Returns results <->
  Forall2 (fun row summary => summary_of json_loads user_role row
                              = Returns summary)
          rows results.
Proof.
  revert results. induction rows as [| row rest IH]; intros results; cbn.
  - split.
    + intros [= <-]. constructor.
    + intros Hall. now inversion Hall.
  - destruct (summary_of json_loads user_role row) as [summary |] eqn:Hrow;
      cbn.
    + destruct (summaries_of json_loads user_role rest) as [later |] eqn:Hrest;
        cbn.
      * split.
        -- intros [= <-]. constructor; [exact Hrow | now apply IH].
        -- intros Hall. inversion Hall as [| ? s ? l Hs Hl]; subst.
           apply IH in Hl. rewrite Hrow in Hs.
           injection Hs as <-. injection Hl as <-. reflexivity.
      * split; [discriminate |].
        intros Hall. inversion Hall as [| ? s ? l Hs Hl]; subst.
        apply IH in Hl. discriminate Hl.
    + split; [discriminate |].
      intros Hall. inversion Hall as [| ? s ? l Hs Hl]; subst. congruence.
Qed.

Lemma summaries_of_raises user_role rows row e :
  row ∈ rows ->
  summary_of json_loads user_role row = Raises e ->
  exists e', summaries_of json_loads user_role rows = Raises e'.
Proof.
  intros Hin Hrow. induction rows as [| first rest IH]; [inversion Hin |].
  cbn. apply elem_of_cons in Hin as [<- | Hin].
  - rewrite Hrow. cbn. eauto.
  - destruct (summary_of json_loads user_role first); cbn; [| eauto].
    destruct (IH Hin) as [e' ->]. cbn. eauto.
Qed.

(** X14. [list_transcripts] never raises and is all or nothing: it
    returns one summary per fetched row, in the order of the rows, or the
    empty list; a single row whose summary cannot be built (its data does
    not parse, its transcript is not a dictionary, a segment is not one)
    empties the whole listing, and so does a failing query. *)
Theorem list_transcripts_all_or_nothing
    (fetched : outcome (list ListedRow)) (user_role : string) :
  exists results,
    list_transcripts json_loads fetched user_role = Returns results
    /\ (results = []
        \/ exists rows,
            fetched = Returns rows
            /\ Forall2 (fun row summary =>
                          summary_of json_loads user_role row = Returns summary)
                       rows results)
    /\ (forall rows row e,
          fetched = Returns rows -> row ∈ rows ->
          summary_of json_loads user_role row = Raises e ->
          results = [])
    /\ (forall e, fetched = Raises e -> results = []).
Proof.
  unfold list_transcripts.
  destruct fetched as [rows | e0]; cbn.
  - destruct (summaries_of json_loads user_role rows) as [results |] eqn:Hall;
      cbn.
    + exists results. split; [reflexivity |]. split.
      * right. exists rows. split; [reflexivity |].
        now apply summaries_of_returns.
      * split; [| discriminate].
        intros rows' row e [= <-] Hin Hrow.
        destruct (summaries_of_raises _ _ _ _ Hin Hrow) as [e' He'].
        congruence.
    + exists []. split; [reflexivity |]. split; [now left |].
      split; reflexivity.
  - exists []. split; [reflexivity |]. split; [now left |]. split; reflexivity.
Qed.

(** X15. What a summary shows depends on the role.  For every role it
    carries the id, the timestamps and the case id of its row; for a role
    other than judge and admin it has exactly the seven summary keys,
    neither ["metadata"] nor ["case_details"]; for judge and admin it also
    has ["metadata"], and ["case_details"] exactly when the transcript has
    a truthy one. *)
Theorem summary_depends_on_role
    (user_role : string) (row : ListedRow) (summary : json) :
  summary_of json_loads user_role row = Returns summary ->
  exists entries,
    summary = JDict entries
    /\ dict_get "id" entries = Some (JStr (listed_id row))
    /\ dict_get "created_at" entries = Some (JStr (listed_created_at row))
    /\ dict_get "updated_at" entries = Some (JStr (listed_updated_at row))
    /\ dict_get "case_id" entries
       = Some (match listed_case_id row with
               | Some c => JStr c
               | None => JNull
               end)
    /\ (user_role <> "judge" -> user_role <> "admin" ->
        entries.*1 = ["id"; "created_at"; "updated_at"; "case_id";
                      "segments_count"; "speakers_count"; "duration"])
    /\ (user_role = "judge" \/ user_role = "admin" ->
        exists data metadata case_details,
          json_loads (listed_data row) = Returns data
          /\ py_get data "metadata" (JDict []) = Returns metadata
          /\ dict_get "metadata" entries = Some metadata
          /\ py_get data "case_details" JNull = Returns case_details
          /\ dict_get "case_details" entries
             = if py_truthy case_details then Some case_details else None).
Proof.
  unfold summary_of.
  destruct (json_loads (listed_data row)) as [data |] eqn:Hdata;
    cbn [mbind outcome_bind]; [| discriminate].
  destruct (py_get data "segments" (JList [])) as [segments |];
    cbn [mbind outcome_bind]; [| discriminate].
  destruct (py_len segments) as [segments_count |];
    cbn [mbind outcome_bind]; [| discriminate].
  match goal with
  | |- (?c ≫= _) = _ -> _ => destruct c as [speakers_count |]
  end; cbn [mbind outcome_bind]; [| discriminate].
  match goal with
  | |- (?c ≫= _) = _ -> _ => destruct c as [duration |]
  end; cbn [mbind outcome_bind]; [| discriminate].
  destruct (String.eqb_spec user_role "judge") as [Hjudge | Hjudge];
    [| destruct (String.eqb_spec user_role "admin") as [Hadmin | Hadmin]];
    cbn [orb].
  3: { intros [= <-]. eexists. split; [reflexivity |].
       do 4 (split; [reflexivity |]). split; [intros _ _; reflexivity |].
       intros [? | ?]; contradiction. }
  all: destruct (py_get data "metadata" (JDict [])) as [metadata |] eqn:Hmeta;
    cbn [mbind outcome_bind]; [| discriminate].
  all: destruct (py_get data "case_details" JNull) as [case_details |]
         eqn:Hcase; cbn [mbind outcome_bind]; [| discriminate].
  all: destruct (py_truthy case_details) eqn:Htruthy; intros [= <-].
  all: eexists; split; [reflexivity |].
  all: do 4 (split; [reflexivity |]).
  all: split; [intros; congruence |].
  all: intros _; exists data, metadata, case_details.
  all: rewrite Htruthy; repeat split; assumption || reflexivity.
Qed.

End WithCodecs.

(** A clerk looks at a stored transcript with two segments. *)
Lemma summary_depends_on_role_witness :
  let stored :=
    JDict [("id", JStr "t1");
           ("segments",
            JList [JDict [("speaker", JStr "Judge"); ("end_time", JFloat 4)];
                   JDict [("speaker", JStr "Judge"); ("end_time", JFloat 9)]]);
           ("metadata", JDict [("device", JStr "cpu")])] in
  exists entries,
    summary_of (fun _ => Returns stored) "clerk"
      {| listed_id := "t1"; listed_data := "stored";
         listed_created_at := "2024-01-01T10:00:00";
         listed_updated_at := "2024-01-01T10:00:00";
         listed_case_id := Some "C-7" |}
    = Returns (JDict entries)
    /\ entries.*1 = ["id"; "created_at"; "updated_at"; "case_id";
                     "segments_count"; "speakers_count"; "duration"].
Proof.
  cbv zeta.
  destruct (summary_depends_on_role
              (fun _ =>
                 Returns
                   (JDict [("id", JStr "t1");
                           ("segments",
                            JList [JDict [("speaker", JStr "Judge");
                                          ("end_time", JFloat 4)];
                                   JDict [("speaker", JStr "Judge");
                                          ("end_time", JFloat 9)]]);
                           ("metadata", JDict [("device", JStr "cpu")])]))
              "clerk"
              {| listed_id := "t1"; listed_data := "stored";
                 listed_created_at := "2024-01-01T10:00:00";
                 listed_updated_at := "2024-01-01T10:00:00";
                 listed_case_id := Some "C-7" |}
              _ eq_refl)
    as (entries & Hsummary & _ & _ & _ & _ & Hkeys & _).
  exists entries. split.
  - rewrite <- Hsummary. reflexivity.
  - apply Hkeys; discriminate.
Defined.

End ListingExtras.

(** ** The HTTP handlers *)

Module ApiFacts.

Import Api.

Lemma ROLES_lookup (r : string) :
  ROLES !! r
  = if decide (r = "judge") then Some ["read"; "edit"; "delete"]
    else if decide (r = "advocate") then Some ["read"]
    else if decide (r = "clerk") then Some ["read"; "metadata"]
    else if decide (r = "admin") then Some ["read"; "edit"; "delete"; "admin"]
    else None.
Proof.
  unfold ROLES. cbn [list_to_map foldr fst snd].
  rewrite !lookup_insert, lookup_empty.
  repeat case_decide; subst; try reflexivity; congruence.
Qed.

Ltac by_role user :=
  unfold has_permission; rewrite ROLES_lookup;
  repeat match goal with
         | |- context [decide (role user = ?r)] =>
             destruct (decide (role user = r))
         end.

Lemma has_permission_read user :
  has_permission user "read" = true <-> is_Some (ROLES !! role user).
Proof.
  by_role user;
    first [ split; [intros _; eauto | intros _; vm_compute; reflexivity]
          | split; [discriminate | intros [? [=]]] ].
Qed.

Lemma has_permission_edit user :
  has_permission user "edit" = true
  <-> role user = "judge" \/ role user = "admin".
Proof.
  by_role user;
    first [ split; [intros _; auto | intros _; vm_compute; reflexivity]
          | split; [vm_compute; discriminate | intros [? | ?]; congruence] ].
Qed.

Lemma has_permission_delete user :
  has_permission user "delete" = true
  <-> role user = "judge" \/ role user = "admin".
Proof.
  by_role user;
    first [ split; [intros _; auto | intros _; vm_compute; reflexivity]
          | split; [vm_compute; discriminate | intros [? | ?]; congruence] ].
Qed.


(** The clause never lets a 404 through. *)
Lemma except_Exception_not_404 {A} http_exception_str prefix
    (body : attempt A) detail :
  except_Exception http_exception_str prefix body <> HTTPException 404 detail.
Proof. destruct body; discriminate. Qed.



End ApiFacts.

Module ApiExtras.

Import Storage StorageWrites StorageFacts StorageWritesFacts Api ApiFacts.

Section Handlers.

Variable sha256_hexdigest : string -> string.
Variable json_loads : string -> outcome json.
Variable json_dumps : json -> string.
Variable http_exception_str : Z -> string -> string.
Variable send_json : WebSocket -> json -> outcome unit.


(** X17. The handler that edits a segment answers 403 to every role but
    judge and admin and then leaves the database alone.  For those two it
    never answers 404: when the storage finds no such transcript or
    segment, the 404 becomes a 500 and the database is unchanged.  When
    the storage has made the edit, the edit stays in the database whether
    or not the broadcast to the listeners raises; a raising broadcast
    turns the answer into a 500. *)
Theorem update_segment_handler
    (db : Database) (active_connections : gmap string (list WebSocket))
    (timestamp new_log_id transcript_id segment_id text : string)
    (user : User) :
  let run :=
    Api.update_transcript_segment sha256_hexdigest json_loads json_dumps
      http_exception_str send_json db active_connections timestamp
      new_log_id transcript_id segment_id text user in
  let message :=
    JDict [("action", JStr "segment_updated");
           ("segment_id", JStr segment_id);
           ("text", JStr text);
           ("updated_by", JStr (username user))] in
  (forall detail, fst run <> HTTPException 404 detail)
  /\ (role user <> "judge" -> role user <> "admin" ->
      run = (HTTPException 403 "Not enough permissions", db))
  /\ (role user = "judge" \/ role user = "admin" ->
      exists updated,
        Storage.update_transcript_segment sha256_hexdigest json_loads
          json_dumps db timestamp new_log_id transcript_id segment_id text
          (username user)
        = Returns (updated, snd run)
        /\ (updated = false ->
            run = (HTTPException 500
                     ("Error updating segment: "
                      +:+ http_exception_str 404 "Segment not found"),
                   db))
        /\ (updated = true ->
            (Api.broadcast send_json active_connections transcript_id message
             = Returns tt ->
             fst run
             = Responds (JDict [("status", JStr "success");
                                ("message",
                                 JStr "Segment updated successfully")]))
            /\ forall e,
                Api.broadcast send_json active_connections transcript_id
                              message
                = Raises e ->
                fst run
                = HTTPException 500
                    ("Error updating segment: " +:+ exn_message e))).
Proof.
  cbv zeta. unfold Api.update_transcript_segment.
  pose proof (has_permission_edit user) as Hedit.
  destruct (has_permission user "edit") eqn:Hperm; cbn [negb].
  - assert (Hrole : role user = "judge" \/ role user = "admin")
      by now apply Hedit.
    destruct (update_transcript_segment_cases sha256_hexdigest json_loads
                json_dumps db timestamp new_log_id transcript_id segment_id
                text (username user))
      as [-> | (row & json_data & _ & ->)].
    + cbn [fst snd]. split; [intros detail; discriminate |].
      split; [intros; destruct Hrole; contradiction |].
      intros _. exists false. split; [reflexivity |].
      split; [reflexivity | discriminate].
    + cbn [fst snd]. split; [intros detail; apply except_Exception_not_404 |].
      split; [intros; destruct Hrole; contradiction |].
      intros _. exists true. split; [reflexivity |].
      split; [discriminate |]. intros _. split.
      * intros ->. reflexivity.
      * intros e ->. reflexivity.
  - cbn [fst snd]. split; [discriminate |]. split; [reflexivity |].
    intros Hrole. apply Hedit in Hrole. discriminate Hrole.
Qed.

(** X18. The handler that deletes a transcript answers 403 to every role
    but judge and admin and then leaves the database alone.  For those two
    it answers 500, never 404, for an id that is not stored, and for a
    stored id it answers with success and the id then reads as missing. *)
Theorem delete_transcript_handler
    (db : Database) (timestamp new_log_id transcript_id : string)
    (user : User) :
  let run :=
    Api.delete_transcript http_exception_str db timestamp new_log_id
                          transcript_id user in
  (forall detail, fst run <> HTTPException 404 detail)
  /\ (role user <> "judge" -> role user <> "admin" ->
      run = (HTTPException 403 "Not enough permissions", db))
  /\ (role user = "judge" \/ role user = "admin" ->
      (transcripts db !! transcript_id = None ->
       run = (HTTPException 500
                ("Error deleting transcript: "
                 +:+ http_exception_str 404 "Transcript not found"),
              db))
      /\ (is_Some (transcripts db !! transcript_id) ->
          fst run
          = Responds (JDict [("status", JStr "success");
                             ("message",
                              JStr "Transcript deleted successfully")])
          /\ transcripts (snd run) = delete transcript_id (transcripts db)
          /\ Storage.get_transcript sha256_hexdigest json_loads (snd run)
                                    transcript_id
             = Returns JNull)).
Proof.
  cbv zeta. unfold Api.delete_transcript.
  pose proof (has_permission_delete user) as Hdelete.
  destruct (has_permission user "delete") eqn:Hperm; cbn [negb].
  - assert (Hrole : role user = "judge" \/ role user = "admin")
      by now apply Hdelete.
    destruct (delete_transcript_cases db timestamp new_log_id transcript_id
                (username user)) as [[Hnone ->] | [Hsome ->]]; cbn [fst snd].
    + split; [intros detail; discriminate |].
      split; [intros; destruct Hrole; contradiction |].
      intros _. split; [reflexivity |].
      intros [row Hrow]. congruence.
    + split; [intros detail; discriminate |].
      split; [intros; destruct Hrole; contradiction |].
      intros _. split.
      * intros Hnone. rewrite Hnone in Hsome. now destruct Hsome.
      * intros _. cbn [transcripts]. split; [reflexivity |].
        split; [reflexivity |].
        apply get_transcript_missing. cbn. apply lookup_delete_eq.
  - cbn [fst snd]. split; [discriminate |]. split; [reflexivity |].
    intros Hrole. apply Hdelete in Hrole. discriminate Hrole.
Qed.


End Handlers.

End ApiExtras.

(** ** Who gets in, and what they may list *)

Module AccessFacts.

Import Api.

Lemma USERS_DB_lookup (name : string) :
  USERS_DB !! name
  = if decide (name = "judge1")
    then Some {| entry_username := "judge1";
                 entry_hashed_password := "hashed_judge1_password";
                 entry_role := "judge";
                 entry_full_name := Some "Hon. Judge Smith" |}
    else if decide (name = "advocate1")
    then Some {| entry_username := "advocate1";
                 entry_hashed_password := "hashed_advocate1_password";
                 entry_role := "advocate";
                 entry_full_name := Some "Adv. Jane Doe" |}
    else if decide (name = "clerk1")
    then Some {| entry_username := "clerk1";
                 entry_hashed_password := "hashed_clerk1_password";
                 entry_role := "clerk";
                 entry_full_name := Some "Court Clerk Johnson" |}
    else None.
Proof.
  unfold USERS_DB. cbn [list_to_map foldr fst snd].
  rewrite !lookup_insert, lookup_empty.
  repeat case_decide; subst; try reflexivity; congruence.
Qed.

(** The storage service's listing never raises. *)
Lemma storage_list_transcripts_returns json_loads fetched user_role :
  exists results,
    StorageListing.list_transcripts json_loads fetched user_role
    = Returns results.
Proof.
  unfold StorageListing.list_transcripts.
  destruct (_ ≫= _); cbn; eauto.
Qed.

End AccessFacts.

Module AccessExtras.

Import Api ApiFacts AccessFacts.

(** X20. The handler that lists transcripts answers 403 exactly to a role
    that is not in [ROLES]; to every other user it answers with what the
    storage service lists for the user's role, and never with a 500: its
    [except] clause cannot be reached, because the storage service turns
    its own failures into the empty list. *)
Theorem list_transcripts_handler
    (json_loads : string -> outcome json)
    (http_exception_str : Z -> string -> string)
    (fetched : outcome (list StorageListing.ListedRow)) (user : User) :
  let result :=
    Api.list_transcripts json_loads http_exception_str fetched user in
  (ROLES !! role user = None
   <-> result = HTTPException 403 "Not enough permissions")
  /\ (is_Some (ROLES !! role user) ->
      exists transcripts,
        StorageListing.list_transcripts json_loads fetched (role user)
        = Returns transcripts
        /\ result = Responds transcripts)
  /\ (forall detail, result <> HTTPException 500 detail)
  /\ (forall e, is_Some (ROLES !! role user) ->
                fetched = Raises e -> result = Responds []).
Proof.
  cbv zeta. unfold Api.list_transcripts.
  pose proof (has_permission_read user) as Hread.
  destruct (storage_list_transcripts_returns json_loads fetched (role user))
    as [results Hresults].
  destruct (has_permission user "read") eqn:Hperm; cbn [negb].
  - assert (Hknown : is_Some (ROLES !! role user)) by now apply Hread.
    rewrite Hresults. cbn [attempt_of except_Exception].
    split.
    { split; [| discriminate].
      intros Hnone. rewrite Hnone in Hknown. now destruct Hknown. }
    split; [intros _; eauto |].
    split; [discriminate |].
    intros e _ ->. unfold StorageListing.list_transcripts in Hresults.
    cbn in Hresults. now injection Hresults as <-.
  - assert (Hunknown : ROLES !! role user = None).
    { destruct (ROLES !! role user) eqn:Hrole; [| reflexivity].
      assert (false = true) by (apply Hread; eauto). discriminate. }
    split; [now split |].
    split; [intros Hknown; rewrite Hunknown in Hknown; now destruct Hknown |].
    split; [discriminate |].
    intros e Hknown. rewrite Hunknown in Hknown. now destruct Hknown.
Qed.

(** X21. [authenticate_user] lets in exactly three pairs of a name and a
    password, the password being the stored text without its
    ["hashed_"], and returns the user of the name; every other pair,
    unknown names included, gets [False].  Whoever it lets in may read;
    only the judge may edit and delete; nobody it lets in has the
    permission ["admin"]. *)
Theorem authenticate_user_accepts (name password : string) (user : User) :
  (authenticate_user name password = Some user
   <-> (name = "judge1" /\ password = "judge1_password"
        /\ user = {| username := "judge1";
                     full_name := Some "Hon. Judge Smith";
                     role := "judge" |})
       \/ (name = "advocate1" /\ password = "advocate1_password"
           /\ user = {| username := "advocate1";
                        full_name := Some "Adv. Jane Doe";
                        role := "advocate" |})
       \/ (name = "clerk1" /\ password = "clerk1_password"
           /\ user = {| username := "clerk1";
                        full_name := Some "Court Clerk Johnson";
                        role := "clerk" |}))
  /\ (authenticate_user name password = Some user ->
      has_permission user "read" = true
      /\ (has_permission user "edit" = true <-> name = "judge1")
      /\ (has_permission user "delete" = true <-> name = "judge1")
      /\ has_permission user "admin" = false).
Proof.
  assert (Hcases :
    authenticate_user name password = Some user
    <-> (name = "judge1" /\ password = "judge1_password"
         /\ user = {| username := "judge1";
                      full_name := Some "Hon. Judge Smith";
                      role := "judge" |})
        \/ (name = "advocate1" /\ password = "advocate1_password"
            /\ user = {| username := "advocate1";
                         full_name := Some "Adv. Jane Doe";
                         role := "advocate" |})
        \/ (name = "clerk1" /\ password = "clerk1_password"
            /\ user = {| username := "clerk1";
                         full_name := Some "Court Clerk Johnson";
                         role := "clerk" |})).
  { unfold authenticate_user, get_user. rewrite USERS_DB_lookup.
    destruct (decide (name = "judge1")) as [-> | Hj].
    { cbn [entry_username entry_hashed_password entry_role entry_full_name].
      unfold verify_password.
      change (py_replace "hashed_judge1_password" "hashed_" EmptyString)
        with "judge1_password".
      destruct (String.eqb_spec password "judge1_password") as [-> | Hp];
        cbn [negb].
      - split; [intros [= <-]; left; auto |].
        intros [(_ & _ & ->) | [(? & _) | (? & _)]];
          [reflexivity | discriminate | discriminate].
      - split; [discriminate |].
        intros [(_ & ? & _) | [(? & _) | (? & _)]];
          [contradiction | discriminate | discriminate]. }
    destruct (decide (name = "advocate1")) as [-> | Ha].
    { cbn [entry_username entry_hashed_password entry_role entry_full_name].
      unfold verify_password.
      change (py_replace "hashed_advocate1_password" "hashed_" EmptyString)
        with "advocate1_password".
      destruct (String.eqb_spec password "advocate1_password") as [-> | Hp];
        cbn [negb].
      - split; [intros [= <-]; right; left; auto |].
        intros [(? & _) | [(_ & _ & ->) | (? & _)]];
          [discriminate | reflexivity | discriminate].
      - split; [discriminate |].
        intros [(? & _) | [(_ & ? & _) | (? & _)]];
          [discriminate | contradiction | discriminate]. }
    destruct (decide (name = "clerk1")) as [-> | Hc].
    { cbn [entry_username entry_hashed_password entry_role entry_full_name].
      unfold verify_password.
      change (py_replace "hashed_clerk1_password" "hashed_" EmptyString)
        with "clerk1_password".
      destruct (String.eqb_spec password "clerk1_password") as [-> | Hp];
        cbn [negb].
      - split; [intros [= <-]; right; right; auto |].
        intros [(? & _) | [(? & _) | (_ & _ & ->)]];
          [discriminate | discriminate | reflexivity].
      - split; [discriminate |].
        intros [(? & _) | [(? & _) | (_ & ? & _)]];
          [discriminate | discriminate | contradiction]. }
    split; [discriminate |].
    intros [(? & _) | [(? & _) | (? & _)]]; contradiction. }
  split; [exact Hcases |].
  intros Hin. apply Hcases in Hin.
  destruct Hin as [(-> & _ & ->) | [(-> & _ & ->) | (-> & _ & ->)]];
    (split; [vm_compute; reflexivity |]);
    (split; [split; [try (vm_compute; discriminate); reflexivity
                    | try discriminate; intros _; vm_compute; reflexivity] |]);
    (split; [split; [try (vm_compute; discriminate); reflexivity
                    | try discriminate; intros _; vm_compute; reflexivity] |]);
    vm_compute; reflexivity.
Qed.

End AccessExtras.
